(** * LINE AI chatbot: history store, model gateway, dispatcher and chunker

    A shallow embedding of [src/index.js].  JavaScript strings are sequences
    of UTF-16 code units, the conversation store is the module-level [Map],
    the two remote clients (the chat model and the messaging platform) are
    oracles, and every call made to them is recorded in a log.  The chat
    client is handed the array of the conversation itself, so it answers
    with the array as it leaves it, too. *)

From Stdlib Require Import ZArith Lia String Ascii.
From stdpp Require Import gmap list.

Local Open Scope Z_scope.

(** ** JavaScript strings *)

(** A string is its sequence of UTF-16 code units; [length] is [.length]. *)
Abbreviation jsstring := (list N).

(** An ASCII literal, one code unit per character. *)
Definition lit (s : string) : jsstring :=
  List.map N_of_ascii (list_ascii_of_string s).

Module JSString.

(** Backwards scan of [String.prototype.lastIndexOf] for a search string of
    one code unit: the largest index [i <= k] holding [c], or [-1]. *)
Fixpoint scanBack (s : jsstring) (c : N) (k : nat) : Z :=
  match s !! k with
  | Some x =>
      if N.eqb x c then Z.of_nat k
      else match k with O => -1 | S k' => scanBack s c k' end
  | None => match k with O => -1 | S k' => scanBack s c k' end
  end.

(** [s.lastIndexOf(c, position)]: the start index is [position] clamped to
    [0 .. s.length]. *)
Definition lastIndexOf (s : jsstring) (c : N) (position : Z) : Z :=
  let len := Z.of_nat (length s) in
  scanBack s c (Z.to_nat (Z.min (Z.max position 0) len)).

Definition clampIndex (len : nat) (i : Z) : nat :=
  Z.to_nat (Z.min (Z.max i 0) (Z.of_nat len)).

(** [s.substring(start, finish)]: both ends are clamped to [0 .. s.length]
    and swapped when out of order. *)
Definition substring (s : jsstring) (start finish : Z) : jsstring :=
  let a := clampIndex (length s) start in
  let b := clampIndex (length s) finish in
  take (Nat.max a b - Nat.min a b) (drop (Nat.min a b) s).

(** [s.substring(start)]. *)
Definition substringFrom (s : jsstring) (start : Z) : jsstring :=
  substring s start (Z.of_nat (length s)).

End JSString.

(** ** Message chunker ([splitMessage]) *)

Module Chunker.
Import JSString.

Definition newline : N := 10%N.          (* '\n' *)
Definition kuten : N := 12290%N.         (* U+3002, the sentence terminator *)
Definition space : N := 32%N.            (* ' ' *)

(** [breakPoint === -1 || breakPoint < maxLength / 2]; for an integer
    [maxLength] the comparison with the half is [2 * breakPoint < maxLength]. *)
Definition unacceptable (breakPoint maxLength : Z) : bool :=
  (breakPoint =? -1) || (2 * breakPoint <? maxLength).

(** The value of [breakPoint] at the end of the three retries. *)
Definition breakPoint (remaining : jsstring) (maxLength : Z) : Z :=
  let bp := lastIndexOf remaining newline maxLength in
  let bp := if unacceptable bp maxLength
            then lastIndexOf remaining kuten maxLength else bp in
  let bp := if unacceptable bp maxLength
            then lastIndexOf remaining space maxLength else bp in
  if unacceptable bp maxLength then maxLength else bp.

(** The [while (remaining.length > 0)] loop; one unit of fuel per test of
    the loop condition. *)
Fixpoint splitLoop (fuel : nat) (remaining : jsstring) (maxLength : Z)
         (chunks : list jsstring) : option (list jsstring) :=
  match fuel with
  | O => None
  | S fuel' =>
      if 0 <? Z.of_nat (length remaining) then
        if Z.of_nat (length remaining) <=? maxLength
        then Some (chunks ++ [remaining])
        else
          let bp := breakPoint remaining maxLength in
          splitLoop fuel' (substringFrom remaining (bp + 1)) maxLength
                    (chunks ++ [substring remaining 0 (bp + 1)])
      else Some chunks
  end.

Definition splitMessageFuel (fuel : nat) (text : jsstring) (maxLength : Z)
  : option (list jsstring) :=
  if Z.of_nat (length text) <=? maxLength then Some [text]
  else splitLoop fuel text maxLength [].

(** The loop tests its condition at most [text.length + 1] times when
    [maxLength] is positive (lemma [splitLoop_enough_fuel] below). *)
Definition splitMessage (text : jsstring) (maxLength : Z)
  : option (list jsstring) :=
  splitMessageFuel (S (length text)) text maxLength.

End Chunker.

(** ** Conversation history store *)

Module History.

(** [{ text: content }] *)
Record Part := { text : jsstring }.

(** [{ role, parts: [{ text: content }] }] *)
Record Turn := { role : jsstring; parts : list Part }.

(** The value of [groupId || roomId || userId]: a string, or [undefined]
    ([None]) when no identifier is present. *)
Abbreviation Key := (option jsstring).

(** [conversationHistory], the module-level [Map] from conversation id to
    its array of turns.  The arrays are only ever reached through the map,
    so updating an array in place is updating the entry. *)
Abbreviation Store := (gmap (option jsstring) (list Turn)).

Definition MAX_HISTORY_LENGTH : nat := 20.

(** Returns the map after the lazy insertion together with the array. *)
Definition getHistory (conversationId : Key) (store : Store)
  : Store * list Turn :=
  let store' :=
    match store !! conversationId with
    | Some _ => store
    | None => <[conversationId := []]> store
    end in
  (store', default [] (store' !! conversationId)).

Definition mkTurn (role content : jsstring) : Turn :=
  {| role := role; parts := [ {| text := content |} ] |}.

(** [history.splice(0, history.length - MAX_HISTORY_LENGTH)] when the
    array has grown past the cap. *)
Definition trim (history : list Turn) : list Turn :=
  if (MAX_HISTORY_LENGTH <? length history)%nat
  then drop (length history - MAX_HISTORY_LENGTH) history
  else history.

Definition addToHistory (conversationId : Key) (role content : jsstring)
           (store : Store) : Store :=
  let '(store', history) := getHistory conversationId store in
  <[conversationId := trim (history ++ [mkTurn role content])]> store'.

Definition clearHistory (conversationId : Key) (store : Store) : Store :=
  delete conversationId store.

(** The turns on record for an id: what [getHistory] would hand back. *)
Definition turnsOf (conversationId : Key) (store : Store) : list Turn :=
  default [] (store !! conversationId).

(** Successive calls [addToHistory(conversationId, role, content)], one
    per [(role, content)] of the list, oldest first. *)
Definition addAll (conversationId : Key) (turns : list (jsstring * jsstring))
           (store : Store) : Store :=
  foldl (fun st rc => addToHistory conversationId rc.1 rc.2 st) store turns.

(** The turn that [addToHistory] pushes for a [(role, content)]. *)
Definition turnOf (rc : jsstring * jsstring) : Turn := mkTurn rc.1 rc.2.

(** The last [n] elements of a list, in order. *)
Definition lastn {A} (n : nat) (l : list A) : list A :=
  drop (length l - n) l.

End History.

(** ** Literals of the dispatcher *)

Module Literal.

Definition reset_ja : jsstring := [12522; 12475; 12483; 12488]%N.
Definition reset_cmd : jsstring := lit "/reset".
Definition help_ja : jsstring := [12504; 12523; 12503]%N.
Definition help_cmd : jsstring := lit "/help".

Definition user : jsstring := lit "user".
Definition model : jsstring := lit "model".
Definition message : jsstring := lit "message".
Definition text : jsstring := lit "text".

(** The reset confirmation (30 code units, the emoji is a surrogate pair). *)
Definition resetReply : jsstring :=
  [20250; 35441; 23653; 27508; 12434; 12522; 12475; 12483; 12488; 12375;
   12414; 12375; 12383; 65281; 55357; 56580; 10; 26032; 12375; 12356;
   20250; 35441; 12434; 22987; 12417; 12414; 12375; 12423; 12358; 65281]%N.

(** The help text, the concatenation of the six literals of the source. *)
Definition helpReply : jsstring :=
  ([55358; 56598] ++ lit " LINE AI Chatbot (Gemini)" ++ [10; 10]
   ++ [35441; 12375; 12363; 12369; 12427; 12392; 65; 73; 12364; 24540;
       31572; 12375; 12414; 12377; 65281; 10; 10]
   ++ [12304; 12467; 12510; 12531; 12489; 12305; 10]
   ++ [12539; 12522; 12475; 12483; 12488; 32; 45; 32; 20250; 35441; 23653;
       27508; 12434; 12463; 12522; 12450; 10]
   ++ [12539; 12504; 12523; 12503; 32; 45; 32; 12371; 12398; 35500; 26126;
       12434; 34920; 31034; 10; 10]
   ++ [20309; 12391; 12418; 32862; 12356; 12390; 12367; 12384; 12373;
       12356; 65281; 55357; 56842])%N.

(** The apology sent when the model call fails. *)
Definition apology : jsstring :=
  [30003; 12375; 35379; 12354; 12426; 12414; 12379; 12435; 12289; 12456;
   12521; 12540; 12364; 30330; 29983; 12375; 12414; 12375; 12383; 12290;
   55357; 56903; 10; 12375; 12400; 12425; 12367; 12375; 12390; 12363;
   12425; 12418; 12358; 19968; 24230; 12362; 35430; 12375; 12367; 12384;
   12373; 12356; 12290]%N.

End Literal.

(** ** Model gateway and event dispatcher *)

Module Bot.
Import History.

(** The three states of a promise. *)
Inductive Outcome (E A : Type) : Type :=
| Fulfilled (a : A)
| Rejected (e : E)
| Pending.
Arguments Fulfilled {E A} a.
Arguments Rejected {E A} e.
Arguments Pending {E A}.

(** What a promise of this program is rejected with: the [TypeError] of a
    property read on [undefined], or the reason given by a remote client. *)
Inductive Failure (R : Type) : Type :=
| TypeError
| Remote (r : R).
Arguments TypeError {R}.
Arguments Remote {R} r.

(** [{ type: 'text', text }] *)
Record TextMessage := { tm_type : jsstring; tm_text : jsstring }.

(** The argument of [lineClient.replyMessage]. *)
Record ReplyRequest :=
  { rq_replyToken : jsstring; rq_messages : list TextMessage }.

Record Message := { m_type : jsstring; m_text : jsstring }.

Record Source :=
  { groupId : option jsstring;
    roomId : option jsstring;
    userId : option jsstring }.

(** A webhook event; [message] is present on events of type ['message']. *)
Record Event :=
  { e_type : jsstring;
    e_message : option Message;
    e_source : Source;
    e_replyToken : jsstring }.

(** The calls made to the two remote clients, oldest first. *)
Inductive Call :=
| CallModel (history : list Turn) (userMessage : jsstring)
| CallReply (request : ReplyRequest).

Record World := { conversationHistory : Store; calls : list Call }.

(** State passing over the store and the call log. *)
Definition M (A : Type) : Type := World -> A * World.

Definition ret {A} (a : A) : M A := fun w => (a, w).

Definition bind {A B} (c : M A) (k : A -> M B) : M B :=
  fun w => let '(a, w') := c w in k a w'.

Notation "x <~ c ;; k" := (bind c (fun x => k))
  (at level 62, c at next level, right associativity).
Notation "c ;;; k" := (bind c (fun _ => k))
  (at level 62, right associativity).

(** A store operation that returns a value. *)
Definition readStore {A} (f : Store -> Store * A) : M A :=
  fun w => let '(s, a) := f (conversationHistory w) in
           (a, {| conversationHistory := s; calls := calls w |}).

(** A store operation that returns nothing. *)
Definition writeStore (f : Store -> Store) : M unit :=
  fun w => (tt, {| conversationHistory := f (conversationHistory w);
                   calls := calls w |}).

Definition record (c : Call) : M unit :=
  fun w => (tt, {| conversationHistory := conversationHistory w;
                   calls := calls w ++ [c] |}).

(** JavaScript truthiness of a value that is a string or [undefined]. *)
Definition truthy (v : option jsstring) : bool :=
  match v with
  | Some (_ :: _) => true
  | _ => false
  end.

(** [a || b] *)
Definition orElse (a b : option jsstring) : option jsstring :=
  if truthy a then a else b.

(** [event.source.groupId || event.source.roomId || event.source.userId] *)
Definition conversationIdOf (source : Source) : Key :=
  orElse (orElse (groupId source) (roomId source)) (userId source).

(** [a === b] on strings. *)
Definition strictEq (a b : jsstring) : bool := bool_decide (a = b).

Definition textMessage (t : jsstring) : TextMessage :=
  {| tm_type := Literal.text; tm_text := t |}.

Section Clients.

(** Rejection reasons and replies of the remote services. *)
Variables Reason ReplyResponse : Type.

(** [model.startChat({ history, ... })] followed by [chat.sendMessage],
    [result.response] and [response.text()].  [history] is the array held by
    the map, handed over as it is and not as a copy: the client answers with
    the text, a rejection or nothing, and with the array as it leaves it. *)
Variable sendMessage :
  list Turn -> jsstring -> Outcome (Failure Reason) jsstring * list Turn.

(** [lineClient.replyMessage]. *)
Variable replyMessage :
  ReplyRequest -> Outcome (Failure Reason) ReplyResponse.

(** The call on the array of [conversationId]: whatever the client has
    written to the array is in the entry of the map once the call is over. *)
Definition callModel (conversationId : Key) (history : list Turn)
           (userMessage : jsstring)
  : M (Outcome (Failure Reason) jsstring) :=
  record (CallModel history userMessage) ;;;
  writeStore (fun store =>
                <[conversationId := (sendMessage history userMessage).2]> store) ;;;
  ret (sendMessage history userMessage).1.

Definition callReply (request : ReplyRequest)
  : M (Outcome (Failure Reason) ReplyResponse) :=
  record (CallReply request) ;;;
  ret (replyMessage request).

Definition getChatResponse (conversationId : Key) (userMessage : jsstring)
  : M (Outcome (Failure Reason) jsstring) :=
  history <~ readStore (getHistory conversationId) ;;
  r <~ callModel conversationId history userMessage ;;
  match r with
  | Fulfilled assistantMessage =>
      writeStore (addToHistory conversationId Literal.user userMessage) ;;;
      writeStore
        (addToHistory conversationId Literal.model assistantMessage) ;;;
      ret (Fulfilled assistantMessage)
  | Rejected error => ret (Rejected error)
  | Pending => ret Pending
  end.

(** [return lineClient.replyMessage({ replyToken: event.replyToken,
    messages })]: the promise of [handleEvent] adopts the state of the
    promise of the reply. *)
Definition adopt (r : Outcome (Failure Reason) ReplyResponse)
  : Outcome (Failure Reason) (option ReplyResponse) :=
  match r with
  | Fulfilled response => Fulfilled (Some response)
  | Rejected error => Rejected error
  | Pending => Pending
  end.

Definition replyRequest (event : Event) (messages : list TextMessage)
  : ReplyRequest :=
  {| rq_replyToken := e_replyToken event; rq_messages := messages |}.

Definition reply (event : Event) (messages : list TextMessage)
  : M (Outcome (Failure Reason) (option ReplyResponse)) :=
  r <~ callReply (replyRequest event messages) ;;
  ret (adopt r).

Definition handleEvent (event : Event)
  : M (Outcome (Failure Reason) (option ReplyResponse)) :=
  if negb (strictEq (e_type event) Literal.message) then ret (Fulfilled None)
  else
    match e_message event with
    | None => ret (Rejected TypeError)
    | Some message =>
        if negb (strictEq (m_type message) Literal.text)
        then ret (Fulfilled None)
        else
          let userMessage := m_text message in
          let conversationId := conversationIdOf (e_source event) in
          if strictEq userMessage Literal.reset_ja
             || strictEq userMessage Literal.reset_cmd
          then
            writeStore (clearHistory conversationId) ;;;
            reply event [textMessage Literal.resetReply]
          else if strictEq userMessage Literal.help_ja
                  || strictEq userMessage Literal.help_cmd
          then reply event [textMessage Literal.helpReply]
          else
            r <~ getChatResponse conversationId userMessage ;;
            match r with
            | Fulfilled aiResponse =>
                match Chunker.splitMessage aiResponse 4500 with
                | Some messages => reply event (List.map textMessage messages)
                | None => ret Pending
                end
            | Rejected _ => reply event [textMessage Literal.apology]
            | Pending => ret Pending
            end
    end.

End Clients.

Arguments callModel {Reason} sendMessage conversationId history userMessage.
Arguments callReply {Reason ReplyResponse} replyMessage request.
Arguments getChatResponse {Reason} sendMessage conversationId userMessage.
Arguments adopt {Reason ReplyResponse} r.
Arguments reply {Reason ReplyResponse} replyMessage event messages.
Arguments handleEvent {Reason ReplyResponse} sendMessage replyMessage event.

End Bot.

(** ** Sample events, stores and clients *)

Module Scenario.
Import History Bot.

(** A group conversation ["G1"] in which user ["U1"] speaks. *)
Definition inGroup : Source :=
  {| groupId := Some (lit "G1"); roomId := None; userId := Some (lit "U1") |}.

(** A source whose [groupId] is the empty string. *)
Definition emptyGroup : Source :=
  {| groupId := Some []; roomId := None; userId := Some (lit "U1") |}.

Definition textEvent (source : Source) (t : jsstring) : Event :=
  {| e_type := Literal.message;
     e_message := Some {| m_type := Literal.text; m_text := t |};
     e_source := source;
     e_replyToken := lit "token" |}.

(** One exchange on record for ["G1"] and one for ["U1"], no call made. *)
Definition world : World :=
  {| conversationHistory :=
       <[Some (lit "G1") := [mkTurn Literal.user (lit "hi");
                             mkTurn Literal.model (lit "hello")]]>
         (<[Some (lit "U1") := [mkTurn Literal.user (lit "yo");
                                mkTurn Literal.model (lit "hey")]]> ∅);
     calls := [] |}.

(** A model that rejects every call and one that answers every call, both
    leaving the array they are handed as they found it. *)
Definition modelDown (history : list Turn) (_ : jsstring)
  : Outcome (Failure N) jsstring * list Turn :=
  (Rejected (Remote 503%N), history).

Definition modelUp (history : list Turn) (_ : jsstring)
  : Outcome (Failure N) jsstring * list Turn :=
  (Fulfilled (lit "ok"), history).

(** A chat session that keeps the array it was started with as its own
    history, the way the session of the Gemini client does: when it has its
    answer it pushes the user turn and the answer onto that array. *)
Definition chatSession (history : list Turn) (userMessage : jsstring)
  : Outcome (Failure N) jsstring * list Turn :=
  (Fulfilled (lit "ok"),
   history ++ [mkTurn Literal.user userMessage;
               mkTurn Literal.model (lit "ok")]).

(** A platform that delivers every reply, and one that refuses every reply. *)
Definition delivered (_ : ReplyRequest) : Outcome (Failure N) unit :=
  Fulfilled tt.

Definition refused (_ : ReplyRequest) : Outcome (Failure N) unit :=
  Rejected (Remote 400%N).

(** Twenty turns on record for ["G1"]: a history at the cap. *)
Definition fullStore : Store :=
  <[Some (lit "G1")
    := List.map (fun n => mkTurn Literal.user [N.of_nat n]) (seq 0 20)]> ∅.

End Scenario.

(** ** Specification vocabulary for the chunker *)

Module ChunkerSpec.

(** [p] is the last index at or before [limit] where [s] holds [c]. *)
Definition lastAtOrBefore (s : jsstring) (c : N) (limit p : Z) : Prop :=
  0 <= p <= limit
  /\ s !! Z.to_nat p = Some c
  /\ forall q, p < q <= limit -> s !! Z.to_nat q <> Some c.

(** [s] holds no [c] at or before [limit]. *)
Definition noneAtOrBefore (s : jsstring) (c : N) (limit : Z) : Prop :=
  forall q, 0 <= q <= limit -> s !! Z.to_nat q <> Some c.

(** A boundary on [c] that the chunker accepts: the last one at or before
    [maxLength], not below half of [maxLength]. *)
Definition accepted (s : jsstring) (c : N) (maxLength p : Z) : Prop :=
  lastAtOrBefore s c maxLength p /\ maxLength <= 2 * p.

(** There is no acceptable boundary on [c]: none at all, or the last one
    lies below half of [maxLength]. *)
Definition refused (s : jsstring) (c : N) (maxLength : Z) : Prop :=
  noneAtOrBefore s c maxLength
  \/ exists p, lastAtOrBefore s c maxLength p /\ 2 * p < maxLength.

End ChunkerSpec.

(** ** The loop of the chunker as a relation *)

Module ChunkerRel.
Import JSString Chunker.

(** The three characters the chunker prefers to cut after. *)
Definition isBreak (c : N) : Prop :=
  c = newline \/ c = kuten \/ c = space.

(** [chunking maxLength remaining cs]: the loop started on [remaining]
    pushes the chunks [cs], in this order, and ends.  An empty remainder
    ends the loop, a remainder that fits is pushed whole, and any other is
    cut after index [breakPoint]. *)
Inductive chunking (maxLength : Z) : jsstring -> list jsstring -> Prop :=
| chunking_done : chunking maxLength [] []
| chunking_last (remaining : jsstring) :
    0 < Z.of_nat (length remaining) <= maxLength ->
    chunking maxLength remaining [remaining]
| chunking_cut (remaining : jsstring) (cs : list jsstring) :
    maxLength < Z.of_nat (length remaining) ->
    chunking maxLength
      (drop (Z.to_nat (breakPoint remaining maxLength + 1)) remaining) cs ->
    chunking maxLength remaining
      (take (Z.to_nat (breakPoint remaining maxLength + 1)) remaining :: cs).

End ChunkerRel.

(** ** Vocabulary for the store, the dispatcher and the webhook route *)

Module StoreSpec.
Import History.

(** Calls [addToHistory(id, role, content)] for several conversations, one
    per [(id, role, content)] of the list, oldest first. *)
Definition appendEach (ops : list (Key * jsstring * jsstring))
           (store : Store) : Store :=
  foldl (fun st op => addToHistory op.1.1 op.1.2 op.2 st) store ops.

(** The turns among [ops] that belong to conversation [cid]. *)
Definition turnsFor (cid : Key) (ops : list (Key * jsstring * jsstring))
  : list Turn :=
  List.map (fun op => mkTurn op.1.2 op.2)
           (filter (fun op : Key * jsstring * jsstring => op.1.1 = cid) ops).

(** No history in the map is longer than the cap. *)
Definition bounded (store : Store) : Prop :=
  map_Forall (fun _ (h : list Turn) => (length h <= MAX_HISTORY_LENGTH)%nat)
             store.

End StoreSpec.

Module DispatcherSpec.
Import History Bot.

(** An event that passes the guard of [handleEvent]: a message event whose
    message is of type text. *)
Definition isTextMessage (event : Event) (message : Message) : Prop :=
  e_type event = Literal.message
  /\ e_message event = Some message
  /\ m_type message = Literal.text.

(** A text that is one of the four command tokens. *)
Definition isCommand (t : jsstring) : Prop :=
  t = Literal.reset_ja \/ t = Literal.reset_cmd
  \/ t = Literal.help_ja \/ t = Literal.help_cmd.

End DispatcherSpec.

(** ** The webhook route *)

Module Webhook.
Import Bot.

(** What the route sends back: [res.json(result)], [res.status(500).end()],
    or nothing while neither callback has run. *)
Inductive HttpResponse (A : Type) : Type :=
| Json (result : list A)
| Status500
| NoResponse.
Arguments Json {A} result.
Arguments Status500 {A}.
Arguments NoResponse {A}.

Definition isRejected {E A} (p : Outcome E A) : bool :=
  match p with Rejected _ => true | _ => false end.

(** The values of the promises when all of them are fulfilled. *)
Fixpoint fulfilledValues {E A} (ps : list (Outcome E A)) : option (list A) :=
  match ps with
  | [] => Some []
  | Fulfilled a :: ps' =>
      match fulfilledValues ps' with
      | Some vs => Some (a :: vs)
      | None => None
      end
  | _ :: _ => None
  end.

(** [Promise.all(promises).then(result => res.json(result)).catch(err =>
    res.status(500).end())], given how the promises of the events settle:
    [Promise.all] rejects as soon as one of them rejects, and fulfils with
    the values in the order of the events once all are fulfilled. *)
Definition respond {E A} (promises : list (Outcome E A)) : HttpResponse A :=
  if existsb isRejected promises then Status500
  else match fulfilledValues promises with
       | Some result => Json result
       | None => NoResponse
       end.

End Webhook.

(** ** Properties of the string primitives *)

Module JSStringFacts.
Import JSString ChunkerSpec.

Lemma scanBack_found (s : jsstring) c k :
  scanBack s c k <> -1 ->
  lastAtOrBefore s c (Z.of_nat k) (scanBack s c k).
Proof.
  unfold lastAtOrBefore.
  induction k as [|k IH]; intros Hr; cbn [scanBack] in *.
  - destruct (s !! 0%nat) as [x|] eqn:E; [|lia].
    destruct (N.eqb_spec x c); [subst|lia].
    cbn. repeat split; [lia | lia | exact E | intros; lia].
  - destruct (s !! S k) as [x|] eqn:E.
    + destruct (N.eqb_spec x c) as [->|Hne].
      * rewrite Nat2Z.id. repeat split; [lia | lia | exact E | intros; lia].
      * destruct (IH Hr) as (Hb & Hl & Hq).
        repeat split; [lia | lia | exact Hl |].
        intros q Hq'. destruct (Z.eq_dec q (Z.of_nat (S k))) as [->|].
        -- rewrite Nat2Z.id, E. congruence.
        -- apply Hq. lia.
    + destruct (IH Hr) as (Hb & Hl & Hq).
      repeat split; [lia | lia | exact Hl |].
      intros q Hq'. destruct (Z.eq_dec q (Z.of_nat (S k))) as [->|].
      -- rewrite Nat2Z.id, E. congruence.
      -- apply Hq. lia.
Qed.

Lemma scanBack_none (s : jsstring) c k :
  scanBack s c k = -1 -> noneAtOrBefore s c (Z.of_nat k).
Proof.
  unfold noneAtOrBefore.
  induction k as [|k IH]; intros Hr q Hq; cbn [scanBack] in *.
  - assert (q = 0) as -> by lia. change (Z.to_nat 0) with 0%nat.
    destruct (s !! 0%nat) as [x|] eqn:E; [|done].
    destruct (N.eqb_spec x c); [lia | congruence].
  - destruct (Z.eq_dec q (Z.of_nat (S k))) as [->|Hne].
    + rewrite Nat2Z.id.
      destruct (s !! S k) as [x|] eqn:E; [|done].
      destruct (N.eqb_spec x c); [lia | congruence].
    + assert (scanBack s c k = -1) as Hk.
      { destruct (s !! S k) as [x|]; [destruct (N.eqb x c); [lia|]|]; exact Hr. }
      apply IH; [exact Hk | lia].
Qed.

(** Beyond the end of the string there is nothing to find, so the clamped
    start index loses no occurrence. *)
Lemma lastIndexOf_spec (s : jsstring) c position :
  0 <= position ->
  (lastIndexOf s c position = -1 /\ noneAtOrBefore s c position)
  \/ (lastAtOrBefore s c position (lastIndexOf s c position)
      /\ lastIndexOf s c position < Z.of_nat (length s)).
Proof.
  intros Hpos. unfold lastIndexOf.
  set (k := Z.to_nat (Z.min (Z.max position 0) (Z.of_nat (length s)))).
  assert (Hk : Z.of_nat k = Z.min position (Z.of_nat (length s))) by lia.
  assert (Hbeyond : forall q, Z.of_nat k < q -> q <= position ->
                              s !! Z.to_nat q = None).
  { intros q H1 H2. apply lookup_ge_None. lia. }
  destruct (Z.eq_dec (scanBack s c k) (-1)) as [E|E].
  - left. split; [exact E|].
    intros q Hq. destruct (Z_le_gt_dec q (Z.of_nat k)).
    + apply (scanBack_none _ _ _ E). lia.
    + rewrite Hbeyond by lia. done.
  - right. destruct (scanBack_found _ _ _ E) as (Hb & Hl & Hq).
    split.
    + repeat split; [lia | lia | exact Hl |].
      intros q Hq'. destruct (Z_le_gt_dec q (Z.of_nat k)).
      * apply Hq. lia.
      * rewrite Hbeyond by lia. done.
    + apply lookup_lt_Some in Hl. lia.
Qed.

Lemma lastIndexOf_range (s : jsstring) c position :
  0 <= position ->
  lastIndexOf s c position = -1
  \/ 0 <= lastIndexOf s c position <= position.
Proof.
  intros H. destruct (lastIndexOf_spec s c position H) as [[E _]|[(Hb & _) _]];
    [left; exact E | right; exact Hb].
Qed.

Lemma substring_prefix (s : jsstring) n :
  0 <= n <= Z.of_nat (length s) ->
  substring s 0 n = take (Z.to_nat n) s.
Proof.
  intros H. unfold substring, clampIndex.
  replace (Z.to_nat (Z.min (Z.max 0 0) (Z.of_nat (length s)))) with 0%nat by lia.
  replace (Z.to_nat (Z.min (Z.max n 0) (Z.of_nat (length s))))
    with (Z.to_nat n) by lia.
  rewrite Nat.min_0_l, Nat.max_0_l, Nat.sub_0_r. reflexivity.
Qed.

Lemma substringFrom_suffix (s : jsstring) n :
  0 <= n <= Z.of_nat (length s) ->
  substringFrom s n = drop (Z.to_nat n) s.
Proof.
  intros H. unfold substringFrom, substring, clampIndex.
  replace (Z.to_nat (Z.min (Z.max n 0) (Z.of_nat (length s))))
    with (Z.to_nat n) by lia.
  replace (Z.to_nat (Z.min (Z.max (Z.of_nat (length s)) 0) (Z.of_nat (length s))))
    with (length s) by lia.
  rewrite Nat.min_l, Nat.max_r by lia.
  apply take_ge. rewrite length_drop. lia.
Qed.

End JSStringFacts.

(** ** Properties of the chunker *)

Module ChunkerFacts.
Import JSString JSStringFacts ChunkerSpec Chunker.

Lemma unacceptable_false bp maxLength :
  unacceptable bp maxLength = false <-> bp <> -1 /\ maxLength <= 2 * bp.
Proof.
  unfold unacceptable. rewrite orb_false_iff, Z.eqb_neq, Z.ltb_ge. tauto.
Qed.

Lemma unacceptable_true bp maxLength :
  unacceptable bp maxLength = true <-> bp = -1 \/ 2 * bp < maxLength.
Proof.
  unfold unacceptable. rewrite orb_true_iff, Z.eqb_eq, Z.ltb_lt. tauto.
Qed.

(** One retry of the search, read against the vocabulary above. *)
Lemma lastIndexOf_verdict (s : jsstring) c maxLength :
  0 <= maxLength ->
  if unacceptable (lastIndexOf s c maxLength) maxLength
  then refused s c maxLength
  else accepted s c maxLength (lastIndexOf s c maxLength).
Proof.
  intros H0.
  destruct (unacceptable _ _) eqn:U.
  - apply unacceptable_true in U.
    destruct (lastIndexOf_spec s c maxLength H0) as [[E Hn]|[Hl _]].
    + left. exact Hn.
    + right. exists (lastIndexOf s c maxLength). split; [exact Hl|].
      destruct U as [U|U]; [|exact U].
      destruct Hl as (Hb & _). lia.
  - apply unacceptable_false in U. destruct U as [Hne Hhalf].
    destruct (lastIndexOf_spec s c maxLength H0) as [[E _]|[Hl _]]; [lia|].
    split; assumption.
Qed.

(** The order of the retries: newline, then sentence terminator, then
    space, then the index [maxLength] itself. *)
Lemma breakPoint_procedure (remaining : jsstring) maxLength :
  0 <= maxLength ->
  accepted remaining newline maxLength (breakPoint remaining maxLength)
  \/ (refused remaining newline maxLength
      /\ accepted remaining kuten maxLength (breakPoint remaining maxLength))
  \/ (refused remaining newline maxLength
      /\ refused remaining kuten maxLength
      /\ accepted remaining space maxLength (breakPoint remaining maxLength))
  \/ (refused remaining newline maxLength
      /\ refused remaining kuten maxLength
      /\ refused remaining space maxLength
      /\ breakPoint remaining maxLength = maxLength).
Proof.
  intros H0. unfold breakPoint. cbv zeta.
  pose proof (lastIndexOf_verdict remaining newline maxLength H0) as Hn.
  pose proof (lastIndexOf_verdict remaining kuten maxLength H0) as Hk.
  pose proof (lastIndexOf_verdict remaining space maxLength H0) as Hs.
  destruct (unacceptable (lastIndexOf remaining newline maxLength) maxLength)
    eqn:Un; cbv iota.
  - destruct (unacceptable (lastIndexOf remaining kuten maxLength) maxLength)
      eqn:Uk; cbv iota.
    + destruct (unacceptable (lastIndexOf remaining space maxLength) maxLength)
        eqn:Us; cbv iota.
      * right; right; right. auto.
      * right; right; left. auto.
    + rewrite Uk; cbv iota. right; left. auto.
  - rewrite Un; cbv iota. rewrite Un; cbv iota. left. exact Hn.
Qed.

Lemma breakPoint_range (remaining : jsstring) maxLength :
  0 < maxLength ->
  0 < breakPoint remaining maxLength <= maxLength.
Proof.
  intros H0.
  destruct (breakPoint_procedure remaining maxLength ltac:(lia))
    as [A|[(_ & A)|[(_ & _ & A)|(_ & _ & _ & E)]]];
    try (destruct A as [(Hb & _) Hh]; lia).
  lia.
Qed.

(** One turn of the loop on a remainder that does not fit: the chunk is the
    prefix up to and including index [breakPoint]. *)
Lemma splitLoop_step fuel (remaining : jsstring) maxLength chunks :
  0 < maxLength ->
  maxLength < Z.of_nat (length remaining) ->
  splitLoop (S fuel) remaining maxLength chunks
  = splitLoop fuel
      (drop (Z.to_nat (breakPoint remaining maxLength + 1)) remaining)
      maxLength
      (chunks ++ [take (Z.to_nat (breakPoint remaining maxLength + 1)) remaining]).
Proof.
  intros H0 Hlen. cbn [splitLoop].
  pose proof (breakPoint_range remaining maxLength H0) as Hbp.
  destruct (Z.ltb_spec 0 (Z.of_nat (length remaining))); [|lia].
  destruct (Z.leb_spec (Z.of_nat (length remaining)) maxLength); [lia|].
  rewrite substring_prefix, substringFrom_suffix by lia. reflexivity.
Qed.

Lemma splitLoop_enough_fuel maxLength :
  0 < maxLength ->
  forall fuel (remaining : jsstring) chunks,
    (length remaining < fuel)%nat ->
    exists cs,
      splitLoop fuel remaining maxLength chunks = Some (chunks ++ cs)
      /\ concat cs = remaining
      /\ Forall (fun c : jsstring => Z.of_nat (length c) <= maxLength + 1) cs.
Proof.
  intros H0. induction fuel as [|fuel IH]; intros remaining chunks Hf; [lia|].
  destruct (Z_le_gt_dec (Z.of_nat (length remaining)) maxLength) as [Hfit|Hbig].
  - cbn [splitLoop].
    destruct (Z.ltb_spec 0 (Z.of_nat (length remaining))).
    + destruct (Z.leb_spec (Z.of_nat (length remaining)) maxLength); [|lia].
      exists [remaining]. split; [reflexivity|]. split.
      * cbn. apply app_nil_r.
      * constructor; [lia | constructor].
    + exists []. rewrite app_nil_r. split; [reflexivity|]. split.
      * destruct remaining; [reflexivity | cbn in *; lia].
      * constructor.
  - rewrite splitLoop_step by lia.
    pose proof (breakPoint_range remaining maxLength H0) as Hbp.
    set (n := Z.to_nat (breakPoint remaining maxLength + 1)) in *.
    destruct (IH (drop n remaining) (chunks ++ [take n remaining]))
      as (cs & Hrun & Hcat & Hall).
    { rewrite length_drop. lia. }
    exists (take n remaining :: cs). split.
    + rewrite Hrun, <- app_assoc. reflexivity.
    + split.
      * cbn. rewrite Hcat. apply take_drop.
      * constructor; [|exact Hall]. rewrite length_take. lia.
Qed.

(** More fuel does not change a result. *)
Lemma splitLoop_fuel_mono maxLength fuel :
  forall (remaining : jsstring) chunks result,
    splitLoop fuel remaining maxLength chunks = Some result ->
    splitLoop (S fuel) remaining maxLength chunks = Some result.
Proof.
  induction fuel as [|fuel IH]; intros remaining chunks result H; [discriminate|].
  cbn [splitLoop] in H. change (splitLoop (S (S fuel)) remaining maxLength chunks)
    with (if 0 <? Z.of_nat (length remaining) then
            if Z.of_nat (length remaining) <=? maxLength
            then Some (chunks ++ [remaining])
            else splitLoop (S fuel)
                   (substringFrom remaining (breakPoint remaining maxLength + 1))
                   maxLength
                   (chunks ++ [substring remaining 0
                                 (breakPoint remaining maxLength + 1)])
          else Some chunks).
  destruct (0 <? Z.of_nat (length remaining)); [|exact H].
  destruct (Z.of_nat (length remaining) <=? maxLength); [exact H|].
  apply IH. exact H.
Qed.

Lemma splitMessage_fits (text : jsstring) maxLength :
  Z.of_nat (length text) <= maxLength ->
  splitMessage text maxLength = Some [text].
Proof.
  intros H. unfold splitMessage, splitMessageFuel.
  destruct (Z.leb_spec (Z.of_nat (length text)) maxLength); [reflexivity | lia].
Qed.

(** For a positive [maxLength] the call returns; its chunks join back to
    the text and none is longer than [maxLength + 1]. *)
Lemma splitMessage_returns (text : jsstring) maxLength :
  0 < maxLength ->
  exists chunks,
    splitMessage text maxLength = Some chunks
    /\ concat chunks = text
    /\ Forall (fun c : jsstring => Z.of_nat (length c) <= maxLength + 1) chunks.
Proof.
  intros H0.
  destruct (Z_le_gt_dec (Z.of_nat (length text)) maxLength) as [Hfit|Hbig].
  - exists [text]. split; [apply splitMessage_fits; exact Hfit|]. split.
    + cbn. apply app_nil_r.
    + constructor; [lia | constructor].
  - unfold splitMessage, splitMessageFuel.
    destruct (Z.leb_spec (Z.of_nat (length text)) maxLength); [lia|].
    destruct (splitLoop_enough_fuel maxLength H0 (S (length text)) text [])
      as (cs & Hrun & Hcat & Hall); [lia|].
    exists cs. auto.
Qed.

End ChunkerFacts.

(** ** Properties of the history store *)

Module HistoryFacts.
Import History.

Lemma trim_lastn (h : list Turn) : trim h = lastn MAX_HISTORY_LENGTH h.
Proof.
  unfold trim, lastn.
  destruct (Nat.ltb_spec MAX_HISTORY_LENGTH (length h)) as [H|H]; [reflexivity|].
  replace (length h - MAX_HISTORY_LENGTH)%nat with 0%nat by lia. reflexivity.
Qed.

Lemma length_lastn {A} n (l : list A) : length (lastn n l) = Nat.min (length l) n.
Proof. unfold lastn. rewrite length_drop. lia. Qed.

Lemma lastn_fits {A} n (l : list A) : (length l <= n)%nat -> lastn n l = l.
Proof.
  intros H. unfold lastn. replace (length l - n)%nat with 0%nat by lia.
  reflexivity.
Qed.

(** Cutting down to the last [n] before appending changes nothing once the
    result is cut down again. *)
Lemma lastn_app_lastn {A} n (a b : list A) :
  lastn n (lastn n a ++ b) = lastn n (a ++ b).
Proof.
  unfold lastn at 2.
  rewrite <- (drop_app_le a b) by lia.
  unfold lastn. rewrite drop_drop. f_equal.
  rewrite length_drop, !length_app. lia.
Qed.

Lemma getHistory_turns (cid : Key) (store : Store) :
  (getHistory cid store).2 = turnsOf cid store.
Proof.
  unfold getHistory, turnsOf. cbn.
  destruct (store !! cid) as [h|] eqn:E.
  - rewrite E. reflexivity.
  - rewrite lookup_insert_eq. reflexivity.
Qed.

(** The lazy insertion does not change the turns on record for any cid. *)
Lemma getHistory_store_turns (cid cid' : Key) (store : Store) :
  turnsOf cid' (getHistory cid store).1 = turnsOf cid' store.
Proof.
  unfold getHistory, turnsOf. cbn.
  destruct (store !! cid) as [h|] eqn:E; [reflexivity|].
  destruct (decide (cid = cid')) as [->|Hne].
  - rewrite lookup_insert_eq, E. reflexivity.
  - rewrite lookup_insert_ne by exact Hne. reflexivity.
Qed.

(** A write of the entry hides whether [getHistory] had created it. *)
Lemma insert_getHistory (cid : Key) (h : list Turn) (store : Store) :
  <[cid := h]> (getHistory cid store).1 = <[cid := h]> store.
Proof.
  unfold getHistory. cbn.
  destruct (store !! cid); [reflexivity | apply insert_insert_eq].
Qed.

Lemma addToHistory_lookup (cid : Key) (role content : jsstring) (store : Store) :
  addToHistory cid role content store !! cid
  = Some (trim (turnsOf cid store ++ [mkTurn role content])).
Proof.
  unfold addToHistory.
  pose proof (getHistory_turns cid store) as Ht.
  destruct (getHistory cid store) as [store' history]. cbn in Ht. subst history.
  apply lookup_insert_eq.
Qed.

Lemma addToHistory_turns (cid : Key) (role content : jsstring) (store : Store) :
  turnsOf cid (addToHistory cid role content store)
  = lastn MAX_HISTORY_LENGTH (turnsOf cid store ++ [mkTurn role content]).
Proof.
  unfold turnsOf at 1. rewrite addToHistory_lookup, trim_lastn. reflexivity.
Qed.

Lemma addToHistory_other (cid cid' : Key) (role content : jsstring) (store : Store) :
  cid <> cid' ->
  turnsOf cid' (addToHistory cid role content store) = turnsOf cid' store.
Proof.
  intros Hne. unfold addToHistory.
  pose proof (getHistory_store_turns cid cid' store) as Hs.
  destruct (getHistory cid store) as [store' history]. cbn in Hs.
  unfold turnsOf in *. rewrite lookup_insert_ne by exact Hne. exact Hs.
Qed.

Lemma addAll_turns (cid : Key) turns :
  forall store : Store,
    (length (turnsOf cid store) <= MAX_HISTORY_LENGTH)%nat ->
    turnsOf cid (addAll cid turns store)
    = lastn MAX_HISTORY_LENGTH (turnsOf cid store ++ List.map turnOf turns).
Proof.
  unfold addAll.
  induction turns as [|rc turns IH]; intros store Hlen; cbn [foldl List.map].
  - rewrite app_nil_r, lastn_fits by exact Hlen. reflexivity.
  - rewrite IH.
    + rewrite addToHistory_turns, lastn_app_lastn, <- app_assoc. reflexivity.
    + rewrite addToHistory_turns, length_lastn. lia.
Qed.

End HistoryFacts.

(** ** Properties of the gateway and the dispatcher *)

Module BotFacts.
Import History HistoryFacts Bot.

Lemma strictEq_true (a b : jsstring) : a = b -> strictEq a b = true.
Proof. intros H. unfold strictEq. apply bool_decide_eq_true_2. exact H. Qed.

Lemma strictEq_false (a b : jsstring) : a <> b -> strictEq a b = false.
Proof. intros H. unfold strictEq. apply bool_decide_eq_false_2. exact H. Qed.

Lemma truthy_orElse (a b : option jsstring) :
  truthy (orElse a b) = truthy a || truthy b.
Proof. unfold orElse. destruct (truthy a) eqn:E; [exact E | reflexivity]. Qed.

Section Clients.
Variables Reason ReplyResponse : Type.
Variable sendMessage :
  list Turn -> jsstring -> Outcome (Failure Reason) jsstring * list Turn.
Variable replyMessage :
  ReplyRequest -> Outcome (Failure Reason) ReplyResponse.

(** The whole effect of one call of [getChatResponse]. *)
Lemma getChatResponse_run (cid : Key) (userMessage : jsstring) (w : World) :
  getChatResponse sendMessage cid userMessage w
  = let old := turnsOf cid (conversationHistory w) in
    let written :=
      <[cid := (sendMessage old userMessage).2]> (conversationHistory w) in
    let log := calls w ++ [CallModel old userMessage] in
    match (sendMessage old userMessage).1 with
    | Fulfilled assistantMessage =>
        (Fulfilled assistantMessage,
         {| conversationHistory :=
              addToHistory cid Literal.model assistantMessage
                (addToHistory cid Literal.user userMessage written);
            calls := log |})
    | Rejected error =>
        (Rejected error, {| conversationHistory := written; calls := log |})
    | Pending =>
        (Pending, {| conversationHistory := written; calls := log |})
    end.
Proof.
  unfold getChatResponse, bind, readStore, callModel, bind, record, writeStore,
    ret.
  pose proof (getHistory_turns cid (conversationHistory w)) as Ht.
  pose proof (insert_getHistory cid
                (sendMessage (turnsOf cid (conversationHistory w)) userMessage).2
                (conversationHistory w)) as Hw.
  destruct (getHistory cid (conversationHistory w)) as [created history].
  cbn in Ht, Hw. subst history. cbn. rewrite Hw.
  destruct (sendMessage _ _).1; reflexivity.
Qed.

Lemma reply_run (event : Event) (messages : list TextMessage) (w : World) :
  reply replyMessage event messages w
  = (adopt (replyMessage (replyRequest event messages)),
     {| conversationHistory := conversationHistory w;
        calls := calls w ++ [CallReply (replyRequest event messages)] |}).
Proof. reflexivity. Qed.

End Clients.

End BotFacts.

(** ** The chunker against its description *)

Module SplitMessage.
Import Chunker ChunkerFacts.

(** C1: every chunk returned by [splitMessage(text, maxLength)] is claimed
    to be at most [maxLength] long.  The code cuts after index [maxLength],
    so a chunk that is cut holds [maxLength + 1] code units: ["abc"] split
    at 2 comes back as the single chunk ["abc"], and 4501 letters split at
    4500, the cap the dispatcher uses, come back as one chunk of 4501. *)
Theorem splitMessage_chunk_longer_than_maxLength :
  splitMessage (lit "abc") 2 = Some [lit "abc"]
  /\ 2 < Z.of_nat (length (lit "abc"))
  /\ splitMessage (repeat 97%N 4501) 4500 = Some [repeat 97%N 4501]
  /\ 4500 < Z.of_nat (length (repeat 97%N 4501)).
Proof.
  split; [reflexivity|]. split; [reflexivity|].
  split; [vm_compute; reflexivity | vm_compute; reflexivity].
Qed.

(** C2: for a positive [maxLength] the call returns, the chunks joined in
    order are the text, and the empty text gives the single chunk [""]. *)
Theorem splitMessage_concat (text : jsstring) (maxLength : Z) :
  0 < maxLength ->
  (exists chunks,
      splitMessage text maxLength = Some chunks /\ concat chunks = text)
  /\ splitMessage [] maxLength = Some [[]].
Proof.
  intros H0. split.
  - destruct (splitMessage_returns text maxLength H0) as (chunks & Hrun & Hcat & _).
    exists chunks. split; assumption.
  - apply splitMessage_fits. cbn. lia.
Qed.

Lemma splitMessage_concat_witness :
  0 < 3
  /\ ((exists chunks,
          splitMessage [97; 98; 10; 99; 100; 101; 102]%N 3 = Some chunks
          /\ concat chunks = [97; 98; 10; 99; 100; 101; 102]%N)
      /\ splitMessage [] 3 = Some [[]]).
Proof.
  split; [lia|].
  apply (splitMessage_concat [97; 98; 10; 99; 100; 101; 102]%N 3). lia.
Defined.

(** C3: the last resort of the cut procedure is claimed to be a hard cut at
    exactly [maxLength] characters.  With no newline, sentence terminator or
    space in sight the code sets [breakPoint] to [maxLength] and keeps the
    code unit at that index too: ["abcdef"] split at 2 is cut into ["abc"]
    and ["def"], three code units each. *)
Theorem splitMessage_hard_cut_keeps_one_more :
  breakPoint (lit "abcdef") 2 = 2
  /\ splitMessage (lit "abcdef") 2 = Some [lit "abc"; lit "def"].
Proof. split; reflexivity. Qed.

(** C4: a single chunk is claimed to come back exactly when
    [text.length <= maxLength].  A text one code unit longer than
    [maxLength] also comes back whole, by a hard cut (["hello"] at 4) or by
    a newline sitting at index [maxLength] (["ab\n"] at 2). *)
Theorem splitMessage_single_chunk_over_maxLength :
  splitMessage (lit "hello") 4 = Some [lit "hello"]
  /\ 4 < Z.of_nat (length (lit "hello"))
  /\ splitMessage [97; 98; 10]%N 2 = Some [[97; 98; 10]%N]
  /\ 2 < Z.of_nat (length [97; 98; 10]%N).
Proof. repeat split; reflexivity. Qed.

End SplitMessage.

(** ** The history store against its description *)

Module HistoryStore.
Import History HistoryFacts.

(** C5: starting from an empty history for [cid], after the appends of
    [turns] the history holds the last 20 of them in append order, its
    length is [min (length turns) 20], and the length is at most
    [MAX_HISTORY_LENGTH] after every one of the appends, as it is after an
    append to any store at all. *)
Theorem addToHistory_keeps_last_20
        (cid : Key) (turns : list (jsstring * jsstring)) (store : Store) :
  turnsOf cid store = [] ->
  turnsOf cid (addAll cid turns store)
  = drop (length turns - 20) (List.map turnOf turns)
  /\ length (turnsOf cid (addAll cid turns store)) = Nat.min (length turns) 20
  /\ (forall k,
         (length (turnsOf cid (addAll cid (take k turns) store))
          <= MAX_HISTORY_LENGTH)%nat)
  /\ (forall (role content : jsstring) (st : Store),
         (length (turnsOf cid (addToHistory cid role content st))
          <= MAX_HISTORY_LENGTH)%nat).
Proof.
  intros Hempty.
  assert (Hall : forall ts,
             turnsOf cid (addAll cid ts store)
             = lastn MAX_HISTORY_LENGTH (List.map turnOf ts)).
  { intros ts. rewrite addAll_turns; rewrite Hempty; [reflexivity | cbn; lia]. }
  split; [|split; [|split]].
  - rewrite Hall. unfold lastn. rewrite length_map. reflexivity.
  - rewrite Hall, length_lastn, length_map. reflexivity.
  - intros k. rewrite Hall, length_lastn. lia.
  - intros role content st. rewrite addToHistory_turns, length_lastn. lia.
Qed.

Lemma addToHistory_keeps_last_20_witness :
  turnsOf (Some (lit "G1")) (∅ : Store) = []
  /\ turnsOf (Some (lit "G1"))
       (addAll (Some (lit "G1"))
               (List.map (fun n => (Literal.user, [N.of_nat n])) (seq 0 23)) ∅)
     = List.map (fun n => mkTurn Literal.user [N.of_nat n]) (seq 3 20)
  /\ length (turnsOf (Some (lit "G1"))
               (addAll (Some (lit "G1"))
                  (List.map (fun n => (Literal.user, [N.of_nat n])) (seq 0 23)) ∅))
     = 20%nat.
Proof.
  pose proof (addToHistory_keeps_last_20 (Some (lit "G1"))
                (List.map (fun n => (Literal.user, [N.of_nat n])) (seq 0 23))
                ∅ eq_refl) as (H1 & H2 & _).
  split; [reflexivity|]. split; [rewrite H1; reflexivity | exact H2].
Defined.

(** C6: [clearHistory(id)] removes the entry for [id]; the [getHistory(id)]
    that follows returns an empty history and leaves a fresh empty entry in
    the map. *)
Theorem clearHistory_then_getHistory (cid : Key) (store : Store) :
  clearHistory cid store !! cid = None
  /\ getHistory cid (clearHistory cid store)
     = (<[cid := []]> (clearHistory cid store), [])
  /\ (getHistory cid (clearHistory cid store)).1 !! cid = Some [].
Proof.
  assert (Hgone : clearHistory cid store !! cid = None)
    by apply lookup_delete_eq.
  assert (Hget : getHistory cid (clearHistory cid store)
                 = (<[cid := []]> (clearHistory cid store), [])).
  { unfold getHistory. rewrite Hgone, lookup_insert_eq. reflexivity. }
  split; [exact Hgone|]. split; [exact Hget|].
  rewrite Hget. apply lookup_insert_eq.
Qed.

End HistoryStore.

(** ** The model gateway against its description *)

Module Gateway.
Import History HistoryFacts Bot BotFacts.

(** C7: after a call that succeeded, exactly the user turn and the model
    turn are claimed to have been appended.  [getChatResponse] starts the
    chat on the array of the map itself, so a session that keeps that array
    as its history has pushed the exchange onto it by the time
    [addToHistory] pushes it again: with two turns on record for ["G1"] and
    the message ["hello"] answered by ["ok"], six turns are on record
    afterwards, the exchange twice. *)
Theorem getChatResponse_records_exchange_twice :
  (getChatResponse Scenario.chatSession (Some (lit "G1")) (lit "hello")
                   Scenario.world).1
  = Fulfilled (lit "ok")
  /\ turnsOf (Some (lit "G1")) (conversationHistory Scenario.world)
     = [ {| role := lit "user"; parts := [ {| text := lit "hi" |} ] |};
         {| role := lit "model"; parts := [ {| text := lit "hello" |} ] |} ]
  /\ turnsOf (Some (lit "G1"))
       (conversationHistory
          (getChatResponse Scenario.chatSession (Some (lit "G1")) (lit "hello")
                           Scenario.world).2)
     = [ {| role := lit "user"; parts := [ {| text := lit "hi" |} ] |};
         {| role := lit "model"; parts := [ {| text := lit "hello" |} ] |};
         {| role := lit "user"; parts := [ {| text := lit "hello" |} ] |};
         {| role := lit "model"; parts := [ {| text := lit "ok" |} ] |};
         {| role := lit "user"; parts := [ {| text := lit "hello" |} ] |};
         {| role := lit "model"; parts := [ {| text := lit "ok" |} ] |} ].
Proof. vm_compute. repeat split; reflexivity. Qed.

End Gateway.

(** ** The dispatcher against its description *)

Module Dispatcher.
Import History HistoryFacts Bot BotFacts.

Section Clients.
Variables Reason ReplyResponse : Type.
Variable sendMessage :
  list Turn -> jsstring -> Outcome (Failure Reason) jsstring * list Turn.
Variable replyMessage :
  ReplyRequest -> Outcome (Failure Reason) ReplyResponse.

(** What [handleEvent] does with a text message, once the two guards on
    the event are passed. *)
Lemma handleEvent_text (event : Event) (message : Message) (w : World) :
  e_type event = Literal.message ->
  e_message event = Some message ->
  m_type message = Literal.text ->
  handleEvent sendMessage replyMessage event w
  = (let userMessage := m_text message in
     let conversationId := conversationIdOf (e_source event) in
     if strictEq userMessage Literal.reset_ja
        || strictEq userMessage Literal.reset_cmd
     then
       bind (writeStore (clearHistory conversationId))
            (fun _ => reply replyMessage event
                        [textMessage Literal.resetReply])
     else if strictEq userMessage Literal.help_ja
             || strictEq userMessage Literal.help_cmd
     then reply replyMessage event [textMessage Literal.helpReply]
     else
       bind (getChatResponse sendMessage conversationId userMessage)
            (fun r =>
               match r with
               | Fulfilled aiResponse =>
                   match Chunker.splitMessage aiResponse 4500 with
                   | Some messages =>
                       reply replyMessage event (List.map textMessage messages)
                   | None => ret Pending
                   end
               | Rejected _ =>
                   reply replyMessage event [textMessage Literal.apology]
               | Pending => ret Pending
               end)) w.
Proof.
  intros Htype Hmsg Hmtype. unfold handleEvent.
  rewrite (strictEq_true _ _ Htype), Hmsg, (strictEq_true _ _ Hmtype).
  reflexivity.
Qed.

(** C8: on a text message whose text is ["リセット"] or ["/reset"] the
    dispatcher deletes the entry of the conversation id and sends the fixed
    confirmation; on ["ヘルプ"] or ["/help"] it sends the fixed help text and
    leaves the store as it was.  In both cases the reply, one message of type
    ["text"], is the only remote call: the model is not called. *)
Theorem handleEvent_commands (event : Event) (message : Message) (w : World) :
  e_type event = lit "message" ->
  e_message event = Some message ->
  m_type message = lit "text" ->
  (m_text message = [12522; 12475; 12483; 12488]%N
   \/ m_text message = lit "/reset" ->
   handleEvent sendMessage replyMessage event w
   = (adopt (replyMessage
               {| rq_replyToken := e_replyToken event;
           rq_messages :=
             [ {| tm_type := lit "text";
                  tm_text :=
                    [20250; 35441; 23653; 27508; 12434; 12522; 12475; 12483;
                     12488; 12375; 12414; 12375; 12383; 65281; 55357; 56580;
                     10; 26032; 12375; 12356; 20250; 35441; 12434; 22987;
                     12417; 12414; 12375; 12423; 12358; 65281]%N |} ] |}),
      {| conversationHistory :=
           delete (conversationIdOf (e_source event)) (conversationHistory w);
         calls := calls w
                  ++ [CallReply
                        {| rq_replyToken := e_replyToken event;
           rq_messages :=
             [ {| tm_type := lit "text";
                  tm_text :=
                    [20250; 35441; 23653; 27508; 12434; 12522; 12475; 12483;
                     12488; 12375; 12414; 12375; 12383; 65281; 55357; 56580;
                     10; 26032; 12375; 12356; 20250; 35441; 12434; 22987;
                     12417; 12414; 12375; 12423; 12358; 65281]%N |} ] |}] |})
     /\ delete (conversationIdOf (e_source event)) (conversationHistory w)
        !! conversationIdOf (e_source event) = None)
  /\ (m_text message = [12504; 12523; 12503]%N
      \/ m_text message = lit "/help" ->
      handleEvent sendMessage replyMessage event w
      = (adopt (replyMessage
                  {| rq_replyToken := e_replyToken event;
           rq_messages :=
             [ {| tm_type := lit "text";
                  tm_text :=
                    [55358; 56598; 32; 76; 73; 78; 69; 32; 65; 73; 32; 67; 104;
                     97; 116; 98; 111; 116; 32; 40; 71; 101; 109; 105; 110;
                     105; 41; 10; 10; 35441; 12375; 12363; 12369; 12427;
                     12392; 65; 73; 12364; 24540; 31572; 12375; 12414; 12377;
                     65281; 10; 10; 12304; 12467; 12510; 12531; 12489; 12305;
                     10; 12539; 12522; 12475; 12483; 12488; 32; 45; 32; 20250;
                     35441; 23653; 27508; 12434; 12463; 12522; 12450; 10;
                     12539; 12504; 12523; 12503; 32; 45; 32; 12371; 12398;
                     35500; 26126; 12434; 34920; 31034; 10; 10; 20309; 12391;
                     12418; 32862; 12356; 12390; 12367; 12384; 12373; 12356;
                     65281; 55357; 56842]%N |} ] |}),
         {| conversationHistory := conversationHistory w;
            calls := calls w
                     ++ [CallReply
                           {| rq_replyToken := e_replyToken event;
           rq_messages :=
             [ {| tm_type := lit "text";
                  tm_text :=
                    [55358; 56598; 32; 76; 73; 78; 69; 32; 65; 73; 32; 67; 104;
                     97; 116; 98; 111; 116; 32; 40; 71; 101; 109; 105; 110;
                     105; 41; 10; 10; 35441; 12375; 12363; 12369; 12427;
                     12392; 65; 73; 12364; 24540; 31572; 12375; 12414; 12377;
                     65281; 10; 10; 12304; 12467; 12510; 12531; 12489; 12305;
                     10; 12539; 12522; 12475; 12483; 12488; 32; 45; 32; 20250;
                     35441; 23653; 27508; 12434; 12463; 12522; 12450; 10;
                     12539; 12504; 12523; 12503; 32; 45; 32; 12371; 12398;
                     35500; 26126; 12434; 34920; 31034; 10; 10; 20309; 12391;
                     12418; 32862; 12356; 12390; 12367; 12384; 12373; 12356;
                     65281; 55357; 56842]%N |} ] |}] |})).
Proof.
  intros Htype Hmsg Hmtype.
  rewrite (handleEvent_text event message w Htype Hmsg Hmtype). cbv zeta.
  split.
  - intros Hreset.
    assert (strictEq (m_text message) Literal.reset_ja
            || strictEq (m_text message) Literal.reset_cmd = true) as ->.
    { destruct Hreset as [H|H]; rewrite H; reflexivity. }
    split; [reflexivity | apply lookup_delete_eq].
  - intros Hhelp.
    assert (strictEq (m_text message) Literal.reset_ja
            || strictEq (m_text message) Literal.reset_cmd = false) as ->.
    { destruct Hhelp as [H|H]; rewrite H; reflexivity. }
    assert (strictEq (m_text message) Literal.help_ja
            || strictEq (m_text message) Literal.help_cmd = true) as ->.
    { destruct Hhelp as [H|H]; rewrite H; reflexivity. }
    destruct w; reflexivity.
Qed.

(** C9, as the code has it: on a text message that is no command, when the
    model call is rejected the dispatcher sends one message of type
    ["text"], the fixed apology, and returns the promise of that reply.  The
    rejection of the model is not passed on; the promise of [handleEvent]
    settles as the reply does, fulfilled when the reply is delivered and
    rejected with the reason of the platform when the reply is refused. *)
Theorem handleEvent_model_failure
        (event : Event) (message : Message) (w : World)
        (error : Failure Reason) (left : list Turn) :
  e_type event = lit "message" ->
  e_message event = Some message ->
  m_type message = lit "text" ->
  m_text message <> [12522; 12475; 12483; 12488]%N ->
  m_text message <> lit "/reset" ->
  m_text message <> [12504; 12523; 12503]%N ->
  m_text message <> lit "/help" ->
  sendMessage
    (turnsOf (conversationIdOf (e_source event)) (conversationHistory w))
    (m_text message) = (Rejected error, left) ->
  handleEvent sendMessage replyMessage event w
  = (adopt (replyMessage
              {| rq_replyToken := e_replyToken event;
           rq_messages :=
             [ {| tm_type := lit "text";
                  tm_text :=
                    [30003; 12375; 35379; 12354; 12426; 12414; 12379; 12435;
                     12289; 12456; 12521; 12540; 12364; 30330; 29983; 12375;
                     12414; 12375; 12383; 12290; 55357; 56903; 10; 12375;
                     12400; 12425; 12367; 12375; 12390; 12363; 12425; 12418;
                     12358; 19968; 24230; 12362; 35430; 12375; 12367; 12384;
                     12373; 12356; 12290]%N |} ] |}),
     {| conversationHistory :=
          <[conversationIdOf (e_source event) := left]> (conversationHistory w);
        calls := calls w
                 ++ [CallModel
                       (turnsOf (conversationIdOf (e_source event))
                                (conversationHistory w))
                       (m_text message);
                     CallReply
                       {| rq_replyToken := e_replyToken event;
           rq_messages :=
             [ {| tm_type := lit "text";
                  tm_text :=
                    [30003; 12375; 35379; 12354; 12426; 12414; 12379; 12435;
                     12289; 12456; 12521; 12540; 12364; 30330; 29983; 12375;
                     12414; 12375; 12383; 12290; 55357; 56903; 10; 12375;
                     12400; 12425; 12367; 12375; 12390; 12363; 12425; 12418;
                     12358; 19968; 24230; 12362; 35430; 12375; 12367; 12384;
                     12373; 12356; 12290]%N |} ] |}] |})
  /\ (forall response,
         replyMessage
           {| rq_replyToken := e_replyToken event;
           rq_messages :=
             [ {| tm_type := lit "text";
                  tm_text :=
                    [30003; 12375; 35379; 12354; 12426; 12414; 12379; 12435;
                     12289; 12456; 12521; 12540; 12364; 30330; 29983; 12375;
                     12414; 12375; 12383; 12290; 55357; 56903; 10; 12375;
                     12400; 12425; 12367; 12375; 12390; 12363; 12425; 12418;
                     12358; 19968; 24230; 12362; 35430; 12375; 12367; 12384;
                     12373; 12356; 12290]%N |} ] |}
         = Fulfilled response ->
         (handleEvent sendMessage replyMessage event w).1
         = Fulfilled (Some response))
  /\ (forall reason,
         replyMessage
           {| rq_replyToken := e_replyToken event;
           rq_messages :=
             [ {| tm_type := lit "text";
                  tm_text :=
                    [30003; 12375; 35379; 12354; 12426; 12414; 12379; 12435;
                     12289; 12456; 12521; 12540; 12364; 30330; 29983; 12375;
                     12414; 12375; 12383; 12290; 55357; 56903; 10; 12375;
                     12400; 12425; 12367; 12375; 12390; 12363; 12425; 12418;
                     12358; 19968; 24230; 12362; 35430; 12375; 12367; 12384;
                     12373; 12356; 12290]%N |} ] |}
         = Rejected reason ->
         (handleEvent sendMessage replyMessage event w).1 = Rejected reason).
Proof.
  intros Htype Hmsg Hmtype Hr1 Hr2 Hh1 Hh2 Hfail.
  assert (Hrun :
    handleEvent sendMessage replyMessage event w
    = (adopt (replyMessage
                (replyRequest event [textMessage Literal.apology])),
       {| conversationHistory :=
            <[conversationIdOf (e_source event) := left]>
              (conversationHistory w);
          calls := calls w
                   ++ [CallModel
                         (turnsOf (conversationIdOf (e_source event))
                                  (conversationHistory w))
                         (m_text message);
                       CallReply
                         (replyRequest event
                            [textMessage Literal.apology])] |})).
  { rewrite (handleEvent_text event message w Htype Hmsg Hmtype). cbv zeta.
    rewrite (strictEq_false _ Literal.reset_ja Hr1),
      (strictEq_false _ Literal.reset_cmd Hr2),
      (strictEq_false _ Literal.help_ja Hh1),
      (strictEq_false _ Literal.help_cmd Hh2).
    cbn [orb]. unfold bind at 1.
    rewrite getChatResponse_run. cbv zeta. rewrite Hfail. cbn [fst snd].
    rewrite reply_run. cbn [conversationHistory calls].
    rewrite <- app_assoc. reflexivity. }
  split; [exact Hrun|]. split.
  - intros response Hreply. rewrite Hrun. cbn [fst].
    change (replyRequest event [textMessage Literal.apology])
      with {| rq_replyToken := e_replyToken event;
           rq_messages :=
             [ {| tm_type := lit "text";
                  tm_text :=
                    [30003; 12375; 35379; 12354; 12426; 12414; 12379; 12435;
                     12289; 12456; 12521; 12540; 12364; 30330; 29983; 12375;
                     12414; 12375; 12383; 12290; 55357; 56903; 10; 12375;
                     12400; 12425; 12367; 12375; 12390; 12363; 12425; 12418;
                     12358; 19968; 24230; 12362; 35430; 12375; 12367; 12384;
                     12373; 12356; 12290]%N |} ] |}.
    rewrite Hreply. reflexivity.
  - intros reason Hreply. rewrite Hrun. cbn [fst].
    change (replyRequest event [textMessage Literal.apology])
      with {| rq_replyToken := e_replyToken event;
           rq_messages :=
             [ {| tm_type := lit "text";
                  tm_text :=
                    [30003; 12375; 35379; 12354; 12426; 12414; 12379; 12435;
                     12289; 12456; 12521; 12540; 12364; 30330; 29983; 12375;
                     12414; 12375; 12383; 12290; 55357; 56903; 10; 12375;
                     12400; 12425; 12367; 12375; 12390; 12363; 12425; 12418;
                     12358; 19968; 24230; 12362; 35430; 12375; 12367; 12384;
                     12373; 12356; 12290]%N |} ] |}.
    rewrite Hreply. reflexivity.
Qed.

End Clients.

Lemma handleEvent_commands_witness :
  (e_type (Scenario.textEvent Scenario.inGroup (lit "/reset")) = lit "message"
   /\ (lit "/reset" = [12522; 12475; 12483; 12488]%N
       \/ lit "/reset" = lit "/reset")
   /\ handleEvent Scenario.modelUp Scenario.delivered
        (Scenario.textEvent Scenario.inGroup (lit "/reset")) Scenario.world
      = (Fulfilled (Some tt),
         {| conversationHistory :=
              delete (Some (lit "G1")) (conversationHistory Scenario.world);
            calls := [CallReply
                        {| rq_replyToken := lit "token";
           rq_messages :=
             [ {| tm_type := lit "text";
                  tm_text :=
                    [20250; 35441; 23653; 27508; 12434; 12522; 12475; 12483;
                     12488; 12375; 12414; 12375; 12383; 65281; 55357; 56580;
                     10; 26032; 12375; 12356; 20250; 35441; 12434; 22987;
                     12417; 12414; 12375; 12423; 12358; 65281]%N |} ] |}] |}))
  /\ ([12504; 12523; 12503]%N = [12504; 12523; 12503]%N
      \/ [12504; 12523; 12503]%N = lit "/help")
  /\ handleEvent Scenario.modelUp Scenario.delivered
       (Scenario.textEvent Scenario.inGroup [12504; 12523; 12503]%N)
       Scenario.world
     = (Fulfilled (Some tt),
        {| conversationHistory := conversationHistory Scenario.world;
           calls := [CallReply
                       {| rq_replyToken := lit "token";
           rq_messages :=
             [ {| tm_type := lit "text";
                  tm_text :=
                    [55358; 56598; 32; 76; 73; 78; 69; 32; 65; 73; 32; 67; 104;
                     97; 116; 98; 111; 116; 32; 40; 71; 101; 109; 105; 110;
                     105; 41; 10; 10; 35441; 12375; 12363; 12369; 12427;
                     12392; 65; 73; 12364; 24540; 31572; 12375; 12414; 12377;
                     65281; 10; 10; 12304; 12467; 12510; 12531; 12489; 12305;
                     10; 12539; 12522; 12475; 12483; 12488; 32; 45; 32; 20250;
                     35441; 23653; 27508; 12434; 12463; 12522; 12450; 10;
                     12539; 12504; 12523; 12503; 32; 45; 32; 12371; 12398;
                     35500; 26126; 12434; 34920; 31034; 10; 10; 20309; 12391;
                     12418; 32862; 12356; 12390; 12367; 12384; 12373; 12356;
                     65281; 55357; 56842]%N |} ] |}] |}).
Proof.
  split; [split; [reflexivity | split; [right; reflexivity|]]
         | split; [left; reflexivity|]].
  - exact (proj1 (proj1 (handleEvent_commands N unit Scenario.modelUp
                           Scenario.delivered
                           (Scenario.textEvent Scenario.inGroup (lit "/reset"))
                           _ Scenario.world eq_refl eq_refl eq_refl)
                        (or_intror eq_refl))).
  - exact (proj2 (handleEvent_commands N unit Scenario.modelUp
                    Scenario.delivered
                    (Scenario.textEvent Scenario.inGroup
                       [12504; 12523; 12503]%N)
                    _ Scenario.world eq_refl eq_refl eq_refl)
                 (or_introl eq_refl)).
Defined.

(** C9 as it was claimed does not hold: with the model down and the platform
    refusing the apology, [handleEvent] does not return normally; its promise
    is rejected and the route answers 500. *)
Lemma handleEvent_model_failure_reply_refused :
  (Scenario.modelDown
     (turnsOf (Some (lit "G1")) (conversationHistory Scenario.world))
     (lit "hello")).1 = Rejected (Remote 503%N)
  /\ (handleEvent Scenario.modelDown Scenario.refused
        (Scenario.textEvent Scenario.inGroup (lit "hello")) Scenario.world).1
     = Rejected (Remote 400%N)
  /\ Webhook.respond
       [(handleEvent Scenario.modelDown Scenario.refused
           (Scenario.textEvent Scenario.inGroup (lit "hello"))
           Scenario.world).1]
     = Webhook.Status500.
Proof. vm_compute. repeat split; reflexivity. Qed.

Lemma handleEvent_model_failure_witness :
  e_type (Scenario.textEvent Scenario.inGroup (lit "hello")) = lit "message"
  /\ lit "hello" <> [12522; 12475; 12483; 12488]%N
  /\ lit "hello" <> lit "/reset"
  /\ lit "hello" <> [12504; 12523; 12503]%N
  /\ lit "hello" <> lit "/help"
  /\ Scenario.modelDown
       (turnsOf (Some (lit "G1")) (conversationHistory Scenario.world))
       (lit "hello")
     = (Rejected (Remote 503%N),
        turnsOf (Some (lit "G1")) (conversationHistory Scenario.world))
  /\ (handleEvent Scenario.modelDown Scenario.delivered
        (Scenario.textEvent Scenario.inGroup (lit "hello")) Scenario.world).1
     = Fulfilled (Some tt)
  /\ (handleEvent Scenario.modelDown Scenario.refused
        (Scenario.textEvent Scenario.inGroup (lit "hello")) Scenario.world).1
     = Rejected (Remote 400%N)
  /\ calls (handleEvent Scenario.modelDown Scenario.delivered
              (Scenario.textEvent Scenario.inGroup (lit "hello"))
              Scenario.world).2
     = [CallModel [mkTurn Literal.user (lit "hi");
                   mkTurn Literal.model (lit "hello")] (lit "hello");
        CallReply
          {| rq_replyToken := lit "token";
           rq_messages :=
             [ {| tm_type := lit "text";
                  tm_text :=
                    [30003; 12375; 35379; 12354; 12426; 12414; 12379; 12435;
                     12289; 12456; 12521; 12540; 12364; 30330; 29983; 12375;
                     12414; 12375; 12383; 12290; 55357; 56903; 10; 12375;
                     12400; 12425; 12367; 12375; 12390; 12363; 12425; 12418;
                     12358; 19968; 24230; 12362; 35430; 12375; 12367; 12384;
                     12373; 12356; 12290]%N |} ] |}].
Proof.
  assert (H1 : lit "hello" <> [12522; 12475; 12483; 12488]%N)
    by (vm_compute; discriminate).
  assert (H2 : lit "hello" <> lit "/reset") by (vm_compute; discriminate).
  assert (H3 : lit "hello" <> [12504; 12523; 12503]%N)
    by (vm_compute; discriminate).
  assert (H4 : lit "hello" <> lit "/help") by (vm_compute; discriminate).
  destruct (handleEvent_model_failure N unit Scenario.modelDown
              Scenario.delivered
              (Scenario.textEvent Scenario.inGroup (lit "hello"))
              _ Scenario.world (Remote 503%N) _
              eq_refl eq_refl eq_refl H1 H2 H3 H4 eq_refl) as (Hrun & Hok & _).
  destruct (handleEvent_model_failure N unit Scenario.modelDown
              Scenario.refused
              (Scenario.textEvent Scenario.inGroup (lit "hello"))
              _ Scenario.world (Remote 503%N) _
              eq_refl eq_refl eq_refl H1 H2 H3 H4 eq_refl) as (_ & _ & Hno).
  split; [reflexivity|].
  split; [exact H1|]. split; [exact H2|]. split; [exact H3|].
  split; [exact H4|]. split; [reflexivity|].
  split; [exact (Hok tt eq_refl)|].
  split; [exact (Hno (Remote 400%N) eq_refl)|].
  rewrite Hrun. reflexivity.
Defined.

(** C10: the conversation id is the first truthy one of [groupId], [roomId]
    and [userId], falling through to [userId] whatever it is; an absent
    identifier and the empty string are falsy, any other string is truthy. *)
Theorem conversationId_truthiness_fallback (source : Source) :
  conversationIdOf source
  = (if truthy (groupId source) then groupId source
     else if truthy (roomId source) then roomId source
          else userId source)
  /\ truthy None = false
  /\ truthy (Some []) = false
  /\ (forall c s, truthy (Some (c :: s)) = true)
  /\ (forall room user,
         conversationIdOf
           {| groupId := Some []; roomId := room; userId := user |}
         = if truthy room then room else user)
  /\ (forall user,
         conversationIdOf
           {| groupId := Some []; roomId := Some []; userId := user |}
         = user).
Proof.
  split.
  - unfold conversationIdOf, orElse.
    destruct (truthy (groupId source)) eqn:G.
    + rewrite G. reflexivity.
    + destruct (truthy (roomId source)) eqn:R; reflexivity.
  - repeat split; reflexivity.
Qed.

End Dispatcher.

(** ** The scenarios of the description, run *)

Module ScenarioFacts.
Import History Bot.

(** Ten thousand code units with a newline every 200: split at 4500, the
    chunks end on a newline and stay under the cap. *)
Example split_paragraphs :
  option_map (List.map (fun c : jsstring => length c))
    (Chunker.splitMessage
       (concat (repeat (repeat 97%N 199 ++ [10%N]) 50)) 4500)
  = Some [4400; 4400; 1200]%nat.
Proof. vm_compute. reflexivity. Qed.

(** A greeting sent in group ["G1"]: the model is called with the history
    of ["G1"], one reply goes out, and the exchange is on record. *)
Example greeting_in_group :
  let run := handleEvent Scenario.modelUp Scenario.delivered
               (Scenario.textEvent Scenario.inGroup
                  [12371; 12435; 12395; 12385; 12399]%N)
               Scenario.world in
  run.1 = Fulfilled (Some tt)
  /\ calls run.2
     = [CallModel [mkTurn Literal.user (lit "hi");
                   mkTurn Literal.model (lit "hello")]
                  [12371; 12435; 12395; 12385; 12399]%N;
        CallReply {| rq_replyToken := lit "token";
                     rq_messages := [textMessage (lit "ok")] |}]
  /\ turnsOf (Some (lit "G1")) (conversationHistory run.2)
     = [mkTurn Literal.user (lit "hi");
        mkTurn Literal.model (lit "hello");
        mkTurn Literal.user [12371; 12435; 12395; 12385; 12399]%N;
        mkTurn Literal.model (lit "ok")].
Proof. vm_compute. repeat split; reflexivity. Qed.

(** A reset sent with an empty [groupId]: the entry that goes is the one of
    the user, not one keyed by the empty string. *)
Example reset_with_empty_groupId :
  let run := handleEvent Scenario.modelUp Scenario.delivered
               (Scenario.textEvent Scenario.emptyGroup Literal.reset_ja)
               Scenario.world in
  conversationHistory run.2 !! Some (lit "U1") = None
  /\ conversationHistory run.2 !! Some (lit "G1")
     = conversationHistory Scenario.world !! Some (lit "G1")
  /\ calls run.2
     = [CallReply {| rq_replyToken := lit "token";
                     rq_messages := [textMessage Literal.resetReply] |}].
Proof. vm_compute. repeat split; reflexivity. Qed.

End ScenarioFacts.

(** ** More on the chunker: shape of the chunks, bad arguments *)

Module ChunkerMore.
Import JSString JSStringFacts ChunkerSpec Chunker ChunkerFacts ChunkerRel.

Lemma lastAtOrBefore_unique (s : jsstring) c limit p q :
  lastAtOrBefore s c limit p -> lastAtOrBefore s c limit q -> p = q.
Proof.
  intros (Hp & Hpc & Hpl) (Hq & Hqc & Hql).
  destruct (Z.lt_trichotomy p q) as [H|[H|H]]; [|exact H|].
  - exfalso. apply (Hpl q); [lia | exact Hqc].
  - exfalso. apply (Hql p); [lia | exact Hpc].
Qed.

Lemma accepted_not_refused (s : jsstring) c maxLength p :
  accepted s c maxLength p -> refused s c maxLength -> False.
Proof.
  intros [Hl Hh] [Hn|(q & Hq & Hlow)].
  - destruct Hl as (Hb & Hc & _). exact (Hn p Hb Hc).
  - rewrite (lastAtOrBefore_unique _ _ _ _ _ Hl Hq) in Hh. lia.
Qed.

Lemma breakPoint_half (remaining : jsstring) maxLength :
  0 < maxLength -> maxLength <= 2 * breakPoint remaining maxLength.
Proof.
  intros H0.
  destruct (breakPoint_procedure remaining maxLength ltac:(lia))
    as [A|[(_ & A)|[(_ & _ & A)|(_ & _ & _ & E)]]];
    try (destruct A as [_ Hh]; exact Hh).
  lia.
Qed.

(** The code unit a cut falls on is a newline, a sentence terminator or a
    space, unless the cut is the last resort at index [maxLength]. *)
Lemma breakPoint_on_break (remaining : jsstring) maxLength :
  0 < maxLength ->
  (exists b, isBreak b
             /\ remaining !! Z.to_nat (breakPoint remaining maxLength) = Some b)
  \/ breakPoint remaining maxLength = maxLength.
Proof.
  intros H0. unfold isBreak.
  destruct (breakPoint_procedure remaining maxLength ltac:(lia))
    as [A|[(_ & A)|[(_ & _ & A)|(_ & _ & _ & E)]]];
    try (destruct A as [(_ & Hc & _) _]; left; eexists; split; [|exact Hc]; tauto).
  right. exact E.
Qed.

Lemma splitLoop_chunking maxLength :
  0 < maxLength ->
  forall fuel (remaining : jsstring) chunks,
    (length remaining < fuel)%nat ->
    exists cs,
      splitLoop fuel remaining maxLength chunks = Some (chunks ++ cs)
      /\ chunking maxLength remaining cs.
Proof.
  intros H0. induction fuel as [|fuel IH]; intros remaining chunks Hf; [lia|].
  destruct (Z_le_gt_dec (Z.of_nat (length remaining)) maxLength) as [Hfit|Hbig].
  - cbn [splitLoop].
    destruct (Z.ltb_spec 0 (Z.of_nat (length remaining))).
    + destruct (Z.leb_spec (Z.of_nat (length remaining)) maxLength); [|lia].
      exists [remaining]. split; [reflexivity|]. apply chunking_last. lia.
    + exists []. rewrite app_nil_r. split; [reflexivity|].
      destruct remaining; [constructor | cbn in *; lia].
  - rewrite splitLoop_step by lia.
    pose proof (breakPoint_range remaining maxLength H0) as Hbp.
    destruct (IH (drop (Z.to_nat (breakPoint remaining maxLength + 1)) remaining)
                 (chunks ++ [take (Z.to_nat (breakPoint remaining maxLength + 1))
                                  remaining]))
      as (cs & Hrun & Hrel).
    { rewrite length_drop. lia. }
    eexists. split.
    + rewrite Hrun, <- app_assoc. reflexivity.
    + apply chunking_cut; [lia | exact Hrel].
Qed.

Lemma splitLoop_fuel_le maxLength (remaining : jsstring) chunks result :
  forall fuel fuel',
    (fuel <= fuel')%nat ->
    splitLoop fuel remaining maxLength chunks = Some result ->
    splitLoop fuel' remaining maxLength chunks = Some result.
Proof.
  intros fuel fuel' Hle H. induction Hle as [|fuel' _ IH]; [exact H|].
  apply splitLoop_fuel_mono. exact IH.
Qed.

(** What [splitMessage] returns for a positive [maxLength]: the text itself
    when it fits, the chunks of the loop otherwise. *)
Lemma splitMessage_chunking (text : jsstring) maxLength chunks :
  0 < maxLength ->
  splitMessage text maxLength = Some chunks ->
  (Z.of_nat (length text) <= maxLength /\ chunks = [text])
  \/ (maxLength < Z.of_nat (length text) /\ chunking maxLength text chunks).
Proof.
  intros H0 Hrun.
  destruct (Z_le_gt_dec (Z.of_nat (length text)) maxLength) as [Hfit|Hbig].
  - left. rewrite splitMessage_fits in Hrun by exact Hfit.
    split; [exact Hfit | congruence].
  - right. split; [lia|].
    unfold splitMessage, splitMessageFuel in Hrun.
    destruct (Z.leb_spec (Z.of_nat (length text)) maxLength); [lia|].
    destruct (splitLoop_chunking maxLength H0 (S (length text)) text [])
      as (cs & Hcs & Hrel); [lia|].
    rewrite Hcs in Hrun. cbn in Hrun. congruence.
Qed.

Lemma chunking_concat maxLength (remaining : jsstring) cs :
  chunking maxLength remaining cs -> concat cs = remaining.
Proof.
  induction 1 as [|remaining Hfit|remaining cs Hbig Hrel IH]; cbn.
  - reflexivity.
  - apply app_nil_r.
  - rewrite IH. apply take_drop.
Qed.

Lemma chunking_nonempty maxLength (remaining : jsstring) cs :
  0 < maxLength ->
  chunking maxLength remaining cs ->
  Forall (fun c : jsstring => c <> []) cs /\ (remaining <> [] -> cs <> []).
Proof.
  intros H0.
  induction 1 as [|remaining Hfit|remaining cs Hbig Hrel [IH _]].
  - split; [constructor | congruence].
  - split; [|discriminate].
    constructor; [|constructor]. intros ->. cbn in Hfit. lia.
  - split; [|discriminate].
    constructor; [|exact IH].
    pose proof (breakPoint_range remaining maxLength H0) as Hbp.
    intros E. apply (f_equal length) in E. rewrite length_take in E.
    cbn in E. lia.
Qed.

(** A property of every chunk the loop cuts holds of every chunk but the
    last. *)
Lemma chunking_before_last maxLength (P : jsstring -> Prop) :
  (forall remaining : jsstring,
      maxLength < Z.of_nat (length remaining) ->
      P (take (Z.to_nat (breakPoint remaining maxLength + 1)) remaining)) ->
  forall (remaining : jsstring) cs,
    chunking maxLength remaining cs ->
    forall i c, cs !! i = Some c -> (S i < length cs)%nat -> P c.
Proof.
  intros HP remaining cs.
  induction 1 as [|remaining Hfit|remaining cs Hbig Hrel IH]; intros i c Hi Hlt.
  - discriminate.
  - cbn in Hlt. lia.
  - destruct i as [|i]; cbn in Hi.
    + injection Hi as <-. apply HP. exact Hbig.
    + apply (IH i c Hi). cbn in Hlt. lia.
Qed.

Lemma chunking_count maxLength (remaining : jsstring) cs :
  0 < maxLength ->
  chunking maxLength remaining cs ->
  (Z.of_nat (length cs) - 1) * maxLength <= 2 * Z.of_nat (length remaining).
Proof.
  intros H0.
  induction 1 as [|remaining Hfit|remaining cs Hbig Hrel IH].
  - cbn. lia.
  - cbn. lia.
  - pose proof (breakPoint_range remaining maxLength H0) as Hbp.
    pose proof (breakPoint_half remaining maxLength H0) as Hhalf.
    rewrite length_drop in IH.
    cbn [length]. rewrite Nat2Z.inj_succ.
    replace ((Z.succ (Z.of_nat (length cs)) - 1) * maxLength)
      with ((Z.of_nat (length cs) - 1) * maxLength + maxLength) by ring.
    lia.
Qed.

End ChunkerMore.

(** ** Further properties of [splitMessage] *)

Module SplitMessageMore.
Import JSString JSStringFacts ChunkerSpec Chunker ChunkerFacts ChunkerRel
       ChunkerMore.

(** X1: for a positive [maxLength] the call returns within
    [text.length + 1] tests of the loop condition (any larger number of
    tests gives the same chunks), and no chunk is longer than
    [maxLength + 1]. *)
Theorem splitMessage_terminates_bounded
        (text : jsstring) (maxLength : Z) (fuel : nat) :
  0 < maxLength ->
  (length text < fuel)%nat ->
  exists chunks,
    splitMessage text maxLength = Some chunks
    /\ splitMessageFuel fuel text maxLength = Some chunks
    /\ Forall (fun c : jsstring => Z.of_nat (length c) <= maxLength + 1) chunks.
Proof.
  intros H0 Hfuel.
  destruct (splitMessage_returns text maxLength H0) as (chunks & Hrun & _ & Hall).
  exists chunks. split; [exact Hrun|]. split; [|exact Hall].
  unfold splitMessage, splitMessageFuel in *.
  destruct (Z.of_nat (length text) <=? maxLength); [exact Hrun|].
  apply (splitLoop_fuel_le _ _ _ _ (S (length text))); [lia | exact Hrun].
Qed.

Lemma splitMessage_terminates_bounded_witness :
  0 < 2
  /\ (length (lit "abcdef") < 100)%nat
  /\ exists chunks,
       splitMessage (lit "abcdef") 2 = Some chunks
       /\ splitMessageFuel 100 (lit "abcdef") 2 = Some chunks
       /\ Forall (fun c : jsstring => Z.of_nat (length c) <= 2 + 1) chunks.
Proof.
  split; [lia|]. split; [cbn; lia|].
  apply (splitMessage_terminates_bounded (lit "abcdef") 2 100); [lia | cbn; lia].
Defined.

(** X2: for a positive [maxLength] and a text that is not empty, at least
    one chunk comes back and no chunk is the empty string. *)
Theorem splitMessage_no_empty_chunk (text : jsstring) (maxLength : Z) :
  0 < maxLength ->
  text <> [] ->
  exists chunks,
    splitMessage text maxLength = Some chunks
    /\ chunks <> []
    /\ Forall (fun c : jsstring => c <> []) chunks.
Proof.
  intros H0 Hne.
  destruct (splitMessage_returns text maxLength H0) as (chunks & Hrun & _ & _).
  exists chunks. split; [exact Hrun|].
  destruct (splitMessage_chunking text maxLength chunks H0 Hrun)
    as [[_ ->]|[_ Hrel]].
  - split; [discriminate|]. constructor; [exact Hne | constructor].
  - destruct (chunking_nonempty maxLength text chunks H0 Hrel) as [Hall Hsome].
    split; [apply Hsome; exact Hne | exact Hall].
Qed.

Lemma splitMessage_no_empty_chunk_witness :
  0 < 3
  /\ [97; 98; 10; 99; 100; 101; 102]%N <> []
  /\ exists chunks,
       splitMessage [97; 98; 10; 99; 100; 101; 102]%N 3 = Some chunks
       /\ chunks <> []
       /\ Forall (fun c : jsstring => c <> []) chunks.
Proof.
  split; [lia|]. split; [discriminate|].
  apply (splitMessage_no_empty_chunk [97; 98; 10; 99; 100; 101; 102]%N 3);
    [lia | discriminate].
Defined.

(** X3: for a positive [maxLength], every chunk but the last is longer than
    half of [maxLength]; so [n] chunks take a text of at least
    [(n - 1) * maxLength / 2] code units. *)
Theorem splitMessage_chunks_over_half
        (text : jsstring) (maxLength : Z) (chunks : list jsstring) :
  0 < maxLength ->
  splitMessage text maxLength = Some chunks ->
  (forall i c,
      chunks !! i = Some c -> (S i < length chunks)%nat ->
      maxLength < 2 * Z.of_nat (length c))
  /\ (Z.of_nat (length chunks) - 1) * maxLength <= 2 * Z.of_nat (length text).
Proof.
  intros H0 Hrun.
  destruct (splitMessage_chunking text maxLength chunks H0 Hrun)
    as [[_ ->]|[_ Hrel]].
  - split; [intros i c _ Hlt; cbn in Hlt; lia | cbn; lia].
  - split; [|apply chunking_count; assumption].
    apply (chunking_before_last maxLength
             (fun c : jsstring => maxLength < 2 * Z.of_nat (length c)))
      with (remaining := text); [|exact Hrel].
    intros remaining Hbig.
    pose proof (breakPoint_range remaining maxLength H0) as Hbp.
    pose proof (breakPoint_half remaining maxLength H0) as Hhalf.
    rewrite length_take. lia.
Qed.

Lemma splitMessage_chunks_over_half_witness :
  0 < 3
  /\ splitMessage [97; 98; 10; 99; 100; 101; 102]%N 3
     = Some [[97; 98; 10]; [99; 100; 101; 102]]%N
  /\ (forall i c,
         [[97; 98; 10]; [99; 100; 101; 102]]%N !! i = Some c ->
         (S i < length [[97; 98; 10]; [99; 100; 101; 102]]%N)%nat ->
         3 < 2 * Z.of_nat (length c))
  /\ (Z.of_nat (length [[97; 98; 10]; [99; 100; 101; 102]]%N) - 1) * 3
     <= 2 * Z.of_nat (length [97; 98; 10; 99; 100; 101; 102]%N).
Proof.
  split; [lia|]. split; [reflexivity|].
  apply (splitMessage_chunks_over_half [97; 98; 10; 99; 100; 101; 102]%N 3);
    [lia | reflexivity].
Defined.

(** X4: for a positive [maxLength], every chunk but the last ends with a
    newline, a sentence terminator or a space, or else is a last-resort cut
    of exactly [maxLength + 1] code units. *)
Theorem splitMessage_cuts_after_break
        (text : jsstring) (maxLength : Z) (chunks : list jsstring) :
  0 < maxLength ->
  splitMessage text maxLength = Some chunks ->
  forall i c,
    chunks !! i = Some c -> (S i < length chunks)%nat ->
    (exists b, last c = Some b /\ isBreak b)
    \/ Z.of_nat (length c) = maxLength + 1.
Proof.
  intros H0 Hrun.
  destruct (splitMessage_chunking text maxLength chunks H0 Hrun)
    as [[_ ->]|[_ Hrel]].
  - intros i c _ Hlt. cbn in Hlt. lia.
  - apply (chunking_before_last maxLength
             (fun c : jsstring =>
                (exists b, last c = Some b /\ isBreak b)
                \/ Z.of_nat (length c) = maxLength + 1))
      with (remaining := text); [|exact Hrel].
    intros remaining Hbig.
    pose proof (breakPoint_range remaining maxLength H0) as Hbp.
    destruct (breakPoint_on_break remaining maxLength H0) as [(b & Hb & Hat)|E].
    + left. exists b. split; [|exact Hb].
      rewrite last_lookup, length_take.
      rewrite lookup_take_lt by lia.
      rewrite <- Hat. f_equal. lia.
    + right. rewrite length_take. lia.
Qed.

Lemma splitMessage_cuts_after_break_witness :
  0 < 3
  /\ splitMessage [97; 98; 10; 99; 100; 101; 102]%N 3
     = Some [[97; 98; 10]; [99; 100; 101; 102]]%N
  /\ ((exists b, last [97; 98; 10]%N = Some b /\ isBreak b)
      \/ Z.of_nat (length [97; 98; 10]%N) = 3 + 1).
Proof.
  split; [lia|]. split; [reflexivity|].
  apply (splitMessage_cuts_after_break [97; 98; 10; 99; 100; 101; 102]%N 3
           [[97; 98; 10]; [99; 100; 101; 102]]%N ltac:(lia) eq_refl 0%nat);
    [reflexivity | cbn; lia].
Defined.

End SplitMessageMore.

(** ** [splitMessage]: preference for the newline, arguments below zero *)

Module SplitMessageEdge.
Import JSString JSStringFacts ChunkerSpec Chunker ChunkerFacts ChunkerRel
       ChunkerMore.

Lemma breakPoint_accepted_newline (text : jsstring) maxLength p :
  0 < maxLength ->
  accepted text newline maxLength p ->
  breakPoint text maxLength = p.
Proof.
  intros H0 Hacc.
  destruct (breakPoint_procedure text maxLength ltac:(lia))
    as [[A _]|[(R & _)|[(R & _)|(R & _)]]];
    try (exfalso; exact (accepted_not_refused _ _ _ _ Hacc R)).
  destruct Hacc as [Hl _]. exact (lastAtOrBefore_unique _ _ _ _ _ A Hl).
Qed.

(** X5: when the text does not fit and its last newline at or before index
    [maxLength] lies at [p], not below half of [maxLength], the first chunk
    is the text up to and including that newline, whatever sentence
    terminators or spaces come after it; the other chunks join back to the
    rest of the text. *)
Theorem splitMessage_prefers_newline
        (text : jsstring) (maxLength p : Z) :
  0 < maxLength ->
  maxLength < Z.of_nat (length text) ->
  accepted text newline maxLength p ->
  exists rest,
    splitMessage text maxLength = Some (take (Z.to_nat (p + 1)) text :: rest)
    /\ concat rest = drop (Z.to_nat (p + 1)) text.
Proof.
  intros H0 Hbig Hacc.
  destruct (splitMessage_returns text maxLength H0) as (chunks & Hrun & _ & _).
  destruct (splitMessage_chunking text maxLength chunks H0 Hrun)
    as [[Hfit _]|[_ Hrel]]; [lia|].
  rewrite Hrun.
  inversion Hrel as [Htext|remaining Hfit Htext|remaining cs Hbig' Hrest Htext];
    subst.
  - cbn in Hbig. lia.
  - lia.
  - rewrite (breakPoint_accepted_newline text maxLength p H0 Hacc) in *.
    exists cs. split; [reflexivity|].
    exact (chunking_concat _ _ _ Hrest).
Qed.

Lemma splitMessage_prefers_newline_witness :
  0 < 4
  /\ 4 < Z.of_nat (length [97; 12290; 10; 32; 99; 100; 101]%N)
  /\ accepted [97; 12290; 10; 32; 99; 100; 101]%N newline 4 2
  /\ exists rest,
       splitMessage [97; 12290; 10; 32; 99; 100; 101]%N 4
       = Some ([97; 12290; 10]%N :: rest)
       /\ concat rest = [32; 99; 100; 101]%N.
Proof.
  assert (Hacc : accepted [97; 12290; 10; 32; 99; 100; 101]%N newline 4 2).
  { split; [|lia]. split; [lia|]. split; [reflexivity|].
    intros q Hq. assert (q = 3 \/ q = 4) as [-> | ->] by lia; discriminate. }
  split; [lia|]. split; [cbn; lia|]. split; [exact Hacc|].
  apply (splitMessage_prefers_newline [97; 12290; 10; 32; 99; 100; 101]%N 4 2);
    [lia | cbn; lia | exact Hacc].
Defined.

Lemma lastIndexOf_below_zero (x : N) (rest : jsstring) c maxLength :
  maxLength < 0 -> x <> c -> lastIndexOf (x :: rest) c maxLength = -1.
Proof.
  intros Hneg Hne. unfold lastIndexOf.
  replace (Z.to_nat (Z.min (Z.max maxLength 0) (Z.of_nat (length (x :: rest)))))
    with 0%nat by lia.
  cbn. destruct (N.eqb_spec x c); [contradiction | reflexivity].
Qed.

Lemma breakPoint_below_zero (x : N) (rest : jsstring) maxLength :
  maxLength < 0 -> ~ isBreak x -> breakPoint (x :: rest) maxLength = maxLength.
Proof.
  intros Hneg Hnb. unfold isBreak in Hnb. unfold breakPoint.
  rewrite !lastIndexOf_below_zero by (try exact Hneg; intros ->; tauto).
  reflexivity.
Qed.

Lemma splitLoop_below_zero (x : N) (rest : jsstring) maxLength :
  maxLength < 0 -> ~ isBreak x ->
  forall fuel chunks, splitLoop fuel (x :: rest) maxLength chunks = None.
Proof.
  intros Hneg Hnb. induction fuel as [|fuel IH]; intros chunks; [reflexivity|].
  cbn [splitLoop].
  destruct (Z.ltb_spec 0 (Z.of_nat (length (x :: rest)))); [|cbn in *; lia].
  destruct (Z.leb_spec (Z.of_nat (length (x :: rest))) maxLength); [lia|].
  rewrite breakPoint_below_zero by assumption.
  replace (substringFrom (x :: rest) (maxLength + 1)) with (x :: rest).
  - apply IH.
  - unfold substringFrom, substring, clampIndex.
    replace (Z.to_nat (Z.min (Z.max (maxLength + 1) 0)
                             (Z.of_nat (length (x :: rest))))) with 0%nat by lia.
    replace (Z.to_nat (Z.min (Z.max (Z.of_nat (length (x :: rest))) 0)
                             (Z.of_nat (length (x :: rest)))))
      with (length (x :: rest)) by lia.
    rewrite Nat.min_0_l, Nat.max_0_l, Nat.sub_0_r.
    symmetry. apply take_ge. cbn. lia.
Qed.

(** X6: with a [maxLength] below zero the empty text gives no chunk at all,
    and a text that starts with anything but a newline, a sentence
    terminator or a space keeps the loop running for ever: the remainder
    never shrinks, so no number of tests of the loop condition is enough. *)
Theorem splitMessage_below_zero (maxLength : Z) :
  maxLength < 0 ->
  splitMessage [] maxLength = Some []
  /\ forall (x : N) (rest : jsstring),
       ~ isBreak x ->
       forall fuel, splitMessageFuel fuel (x :: rest) maxLength = None.
Proof.
  intros Hneg. split.
  - unfold splitMessage, splitMessageFuel. cbn [length].
    destruct (Z.leb_spec (Z.of_nat 0) maxLength); [lia | reflexivity].
  - intros x rest Hnb fuel. unfold splitMessageFuel.
    destruct (Z.leb_spec (Z.of_nat (length (x :: rest))) maxLength); [lia|].
    apply splitLoop_below_zero; assumption.
Qed.

Lemma splitMessage_below_zero_witness :
  -1 < 0
  /\ splitMessage [] (-1) = Some []
  /\ forall fuel, splitMessageFuel fuel (lit "abc") (-1) = None.
Proof.
  split; [lia|].
  destruct (splitMessage_below_zero (-1) ltac:(lia)) as [Hempty Hloop].
  split; [exact Hempty|].
  apply (Hloop 97%N (lit "bc")).
  unfold isBreak. intros [H|[H|H]]; discriminate H.
Defined.

End SplitMessageEdge.

(** ** More on the history store *)

Module HistoryMore.
Import History HistoryFacts StoreSpec.

(** An append is one write of the map: the entry becomes the old turns and
    the new one, cut down to the cap. *)
Lemma addToHistory_insert (cid : Key) (role content : jsstring) (store : Store) :
  addToHistory cid role content store
  = <[cid := lastn MAX_HISTORY_LENGTH
               (turnsOf cid store ++ [mkTurn role content])]> store.
Proof.
  unfold addToHistory, getHistory, turnsOf. rewrite trim_lastn.
  destruct (store !! cid) as [h|] eqn:E.
  - rewrite E. reflexivity.
  - rewrite lookup_insert_eq. cbn. apply insert_insert_eq.
Qed.

Lemma getHistory_insert (cid : Key) (store : Store) :
  (getHistory cid store).1 = <[cid := turnsOf cid store]> store.
Proof.
  unfold getHistory, turnsOf. cbn.
  destruct (store !! cid) as [h|] eqn:E; cbn.
  - symmetry. apply insert_id. exact E.
  - reflexivity.
Qed.

Lemma getHistory_present (cid : Key) (store : Store) (h : list Turn) :
  store !! cid = Some h -> getHistory cid store = (store, h).
Proof. intros E. unfold getHistory. rewrite E. cbn. rewrite E. reflexivity. Qed.

Lemma turnsOf_insert_eq (cid : Key) (h : list Turn) (store : Store) :
  turnsOf cid (<[cid := h]> store) = h.
Proof. unfold turnsOf. rewrite lookup_insert_eq. reflexivity. Qed.

Lemma turnsOf_insert_ne (cid cid' : Key) (h : list Turn) (store : Store) :
  cid <> cid' -> turnsOf cid' (<[cid := h]> store) = turnsOf cid' store.
Proof. intros Hne. unfold turnsOf. rewrite lookup_insert_ne by exact Hne. reflexivity. Qed.

(** The two appends of one exchange, as one write of the map. *)
Lemma addToHistory_twice (cid : Key) (r1 c1 r2 c2 : jsstring) (store : Store) :
  addToHistory cid r2 c2 (addToHistory cid r1 c1 store)
  = <[cid := lastn MAX_HISTORY_LENGTH
               (turnsOf cid store ++ [mkTurn r1 c1; mkTurn r2 c2])]> store.
Proof.
  rewrite (addToHistory_insert cid r2 c2), (addToHistory_insert cid r1 c1).
  rewrite turnsOf_insert_eq, insert_insert_eq, lastn_app_lastn, <- app_assoc.
  reflexivity.
Qed.

Lemma bounded_insert (cid : Key) (h : list Turn) (store : Store) :
  (length h <= MAX_HISTORY_LENGTH)%nat ->
  bounded store -> bounded (<[cid := h]> store).
Proof. intros Hh Hb. apply map_Forall_insert_2; assumption. Qed.

Lemma bounded_turnsOf (cid : Key) (store : Store) :
  bounded store -> (length (turnsOf cid store) <= MAX_HISTORY_LENGTH)%nat.
Proof.
  intros Hb. unfold turnsOf.
  destruct (store !! cid) as [h|] eqn:E; cbn; [|lia].
  exact (Hb cid h E).
Qed.

End HistoryMore.

(** ** Further properties of the history store *)

Module StoreMore.
Import History HistoryFacts StoreSpec HistoryMore.

(** X7: [getHistory] only ever adds the empty entry it hands back: the map it
    leaves is the old one with the id bound to the turns it had, the array
    returned is that entry, no id has other turns on record than before, and
    a second call changes nothing more. *)
Theorem getHistory_reads (cid : Key) (store : Store) :
  (getHistory cid store).1 = <[cid := turnsOf cid store]> store
  /\ (getHistory cid store).1 !! cid = Some (getHistory cid store).2
  /\ (forall cid', turnsOf cid' (getHistory cid store).1 = turnsOf cid' store)
  /\ getHistory cid (getHistory cid store).1 = getHistory cid store.
Proof.
  split; [apply getHistory_insert|]. split; [|split].
  - rewrite getHistory_insert, getHistory_turns. apply lookup_insert_eq.
  - intros cid'. apply getHistory_store_turns.
  - assert (H : (getHistory cid store).1 !! cid = Some (turnsOf cid store)).
    { rewrite getHistory_insert. apply lookup_insert_eq. }
    rewrite (getHistory_present cid _ _ H), <- getHistory_turns.
    symmetry. apply surjective_pairing.
Qed.

(** X8: the three operations on one conversation leave the entry of every
    other conversation as it was. *)
Theorem store_operations_frame
        (cid cid' : Key) (role content : jsstring) (store : Store) :
  cid <> cid' ->
  (getHistory cid store).1 !! cid' = store !! cid'
  /\ addToHistory cid role content store !! cid' = store !! cid'
  /\ clearHistory cid store !! cid' = store !! cid'.
Proof.
  intros Hne. split; [|split].
  - rewrite getHistory_insert. apply lookup_insert_ne. exact Hne.
  - rewrite addToHistory_insert. apply lookup_insert_ne. exact Hne.
  - apply lookup_delete_ne. exact Hne.
Qed.

Lemma store_operations_frame_witness :
  Some (lit "G1") <> Some (lit "U1")
  /\ (getHistory (Some (lit "G1")) (Bot.conversationHistory Scenario.world)).1
     !! Some (lit "U1")
     = Bot.conversationHistory Scenario.world !! Some (lit "U1")
  /\ addToHistory (Some (lit "G1")) Literal.user (lit "hi")
                  (Bot.conversationHistory Scenario.world) !! Some (lit "U1")
     = Bot.conversationHistory Scenario.world !! Some (lit "U1")
  /\ clearHistory (Some (lit "G1")) (Bot.conversationHistory Scenario.world)
     !! Some (lit "U1")
     = Bot.conversationHistory Scenario.world !! Some (lit "U1").
Proof.
  assert (Hne : Some (lit "G1") <> Some (lit "U1")) by discriminate.
  split; [exact Hne|].
  exact (store_operations_frame (Some (lit "G1")) (Some (lit "U1"))
           Literal.user (lit "hi") (Bot.conversationHistory Scenario.world) Hne).
Defined.

Lemma appendEach_turns (cid : Key) (ops : list (Key * jsstring * jsstring)) :
  forall store : Store,
    (length (turnsOf cid store) <= MAX_HISTORY_LENGTH)%nat ->
    turnsOf cid (appendEach ops store)
    = lastn MAX_HISTORY_LENGTH (turnsOf cid store ++ turnsFor cid ops).
Proof.
  unfold appendEach, turnsFor.
  induction ops as [|[[k r] c] ops IH]; intros store Hlen; cbn [foldl].
  - cbn. rewrite app_nil_r, lastn_fits by exact Hlen. reflexivity.
  - cbn [fst snd]. destruct (decide (k = cid)) as [->|Hne].
    + rewrite filter_cons_True by reflexivity. cbn [List.map fst snd].
      rewrite IH.
      * rewrite addToHistory_turns, lastn_app_lastn, <- app_assoc. reflexivity.
      * rewrite addToHistory_turns, length_lastn. lia.
    + rewrite filter_cons_False by exact Hne.
      rewrite IH; rewrite addToHistory_other by exact Hne;
        [reflexivity | exact Hlen].
Qed.

(** X9: when appends for several conversations are mixed, each conversation
    keeps the last 20 of its own turns, in order; the turns of the others do
    not count against its cap. *)
Theorem appendEach_keeps_own_last_20
        (cid : Key) (ops : list (Key * jsstring * jsstring)) (store : Store) :
  turnsOf cid store = [] ->
  turnsOf cid (appendEach ops store)
  = drop (length (turnsFor cid ops) - 20) (turnsFor cid ops)
  /\ length (turnsOf cid (appendEach ops store))
     = Nat.min (length (turnsFor cid ops)) 20.
Proof.
  intros Hempty.
  assert (H : turnsOf cid (appendEach ops store)
              = lastn MAX_HISTORY_LENGTH (turnsFor cid ops)).
  { rewrite appendEach_turns; rewrite Hempty; [reflexivity | cbn; lia]. }
  split.
  - rewrite H. reflexivity.
  - rewrite H, length_lastn. reflexivity.
Qed.

Lemma appendEach_keeps_own_last_20_witness :
  turnsOf (Some (lit "A")) (∅ : Store) = []
  /\ turnsOf (Some (lit "A"))
       (appendEach
          (List.flat_map
             (fun n => [(Some (lit "A"), Literal.user, [N.of_nat n]);
                        (Some (lit "B"), Literal.user, [N.of_nat n])])
             (seq 0 22)) ∅)
     = List.map (fun n => mkTurn Literal.user [N.of_nat n]) (seq 2 20).
Proof.
  assert (H0 : turnsOf (Some (lit "A")) (∅ : Store) = []) by reflexivity.
  split; [exact H0|].
  rewrite (proj1 (appendEach_keeps_own_last_20 (Some (lit "A"))
                    (List.flat_map
                       (fun n => [(Some (lit "A"), Literal.user, [N.of_nat n]);
                                  (Some (lit "B"), Literal.user, [N.of_nat n])])
                       (seq 0 22)) ∅ H0)).
  vm_compute. reflexivity.
Defined.

(** X10: [clearHistory] forgets whatever was done to the conversation before
    it (a read, an append, an earlier clear), and the first append after it
    starts a history of one turn. *)
Theorem clearHistory_absorbs
        (cid : Key) (role content : jsstring) (store : Store) :
  clearHistory cid (addToHistory cid role content store)
  = clearHistory cid store
  /\ clearHistory cid (getHistory cid store).1 = clearHistory cid store
  /\ clearHistory cid (clearHistory cid store) = clearHistory cid store
  /\ turnsOf cid (addToHistory cid role content (clearHistory cid store))
     = [mkTurn role content].
Proof.
  unfold clearHistory. split; [|split; [|split]].
  - rewrite addToHistory_insert. apply delete_insert_eq.
  - rewrite getHistory_insert. apply delete_insert_eq.
  - apply delete_id. apply lookup_delete_eq.
  - rewrite addToHistory_turns. unfold turnsOf.
    rewrite lookup_delete_eq. reflexivity.
Qed.

(** X11: a map in which no history is longer than the cap stays so under
    each of the three operations. *)
Theorem store_operations_bounded
        (cid : Key) (role content : jsstring) (store : Store) :
  bounded store ->
  bounded (getHistory cid store).1
  /\ bounded (addToHistory cid role content store)
  /\ bounded (clearHistory cid store).
Proof.
  intros Hb. split; [|split].
  - rewrite getHistory_insert. apply bounded_insert; [|exact Hb].
    apply bounded_turnsOf. exact Hb.
  - rewrite addToHistory_insert. apply bounded_insert; [|exact Hb].
    rewrite length_lastn. lia.
  - unfold clearHistory, bounded. apply map_Forall_delete. exact Hb.
Qed.

Lemma store_operations_bounded_witness :
  bounded Scenario.fullStore
  /\ length (turnsOf (Some (lit "G1")) Scenario.fullStore) = 20%nat
  /\ bounded (getHistory (Some (lit "G1")) Scenario.fullStore).1
  /\ bounded (addToHistory (Some (lit "G1")) Literal.user (lit "hi")
                           Scenario.fullStore)
  /\ length (turnsOf (Some (lit "G1"))
                (addToHistory (Some (lit "G1")) Literal.user (lit "hi")
                              Scenario.fullStore)) = 20%nat
  /\ bounded (clearHistory (Some (lit "G1")) Scenario.fullStore).
Proof.
  assert (H0 : bounded Scenario.fullStore).
  { apply map_Forall_insert_2; [|apply map_Forall_empty].
    vm_compute. repeat constructor. }
  destruct (store_operations_bounded (Some (lit "G1")) Literal.user (lit "hi")
              Scenario.fullStore H0) as (Hget & Hadd & Hclear).
  split; [exact H0|]. split; [reflexivity|]. split; [exact Hget|].
  split; [exact Hadd|]. split; [vm_compute; reflexivity | exact Hclear].
Defined.

End StoreMore.

(** ** More on the gateway and the dispatcher *)

Module BotMore.
Import History HistoryFacts StoreSpec HistoryMore Bot BotFacts DispatcherSpec.

Lemma notCommand_tests (t : jsstring) :
  ~ isCommand t ->
  strictEq t Literal.reset_ja || strictEq t Literal.reset_cmd = false
  /\ strictEq t Literal.help_ja || strictEq t Literal.help_cmd = false.
Proof.
  unfold isCommand. intros H.
  rewrite !strictEq_false; [split; reflexivity | | | |]; intros ->; tauto.
Qed.

Section Clients.
Variables Reason ReplyResponse : Type.
Variable sendMessage :
  list Turn -> jsstring -> Outcome (Failure Reason) jsstring * list Turn.
Variable replyMessage :
  ReplyRequest -> Outcome (Failure Reason) ReplyResponse.

(** The map [getChatResponse] leaves, as one write of the entry: what the
    client left in the array, followed after an answer by the user turn and
    the model turn, under the cap. *)
Lemma getChatResponse_store (cid : Key) (userMessage : jsstring) (w : World) :
  conversationHistory (getChatResponse sendMessage cid userMessage w).2
  = <[cid :=
        match (sendMessage (turnsOf cid (conversationHistory w)) userMessage).1
        with
        | Fulfilled assistantMessage =>
            lastn MAX_HISTORY_LENGTH
              ((sendMessage (turnsOf cid (conversationHistory w)) userMessage).2
               ++ [mkTurn Literal.user userMessage;
                   mkTurn Literal.model assistantMessage])
        | _ => (sendMessage (turnsOf cid (conversationHistory w)) userMessage).2
        end]> (conversationHistory w).
Proof.
  rewrite getChatResponse_run. cbv zeta.
  destruct (sendMessage _ _).1; cbn [snd conversationHistory];
    rewrite ?addToHistory_twice, ?turnsOf_insert_eq, ?insert_insert_eq;
    reflexivity.
Qed.

Lemma getChatResponse_calls (cid : Key) (userMessage : jsstring) (w : World) :
  calls (getChatResponse sendMessage cid userMessage w).2
  = calls w ++ [CallModel (turnsOf cid (conversationHistory w)) userMessage].
Proof.
  rewrite getChatResponse_run. cbv zeta. destruct (sendMessage _ _).1; reflexivity.
Qed.

Lemma strictEq_eq (a b : jsstring) : strictEq a b = true -> a = b.
Proof. unfold strictEq. apply bool_decide_eq_true_1. Qed.

(** The whole effect of [handleEvent] on a text message that is no command. *)
Lemma handleEvent_chat_run (event : Event) (message : Message) (w : World) :
  isTextMessage event message ->
  strictEq (m_text message) Literal.reset_ja
  || strictEq (m_text message) Literal.reset_cmd = false ->
  strictEq (m_text message) Literal.help_ja
  || strictEq (m_text message) Literal.help_cmd = false ->
  handleEvent sendMessage replyMessage event w
  = let cid := conversationIdOf (e_source event) in
    let store := conversationHistory w in
    let old := turnsOf cid store in
    let asked := CallModel old (m_text message) in
    let left := (sendMessage old (m_text message)).2 in
    match (sendMessage old (m_text message)).1 with
    | Fulfilled aiResponse =>
        let store' :=
          <[cid := lastn MAX_HISTORY_LENGTH
                     (left ++ [mkTurn Literal.user (m_text message);
                               mkTurn Literal.model aiResponse])]> store in
        match Chunker.splitMessage aiResponse 4500 with
        | Some messages =>
            let request := replyRequest event (List.map textMessage messages) in
            (adopt (replyMessage request),
             {| conversationHistory := store';
                calls := calls w ++ [asked; CallReply request] |})
        | None =>
            (Pending,
             {| conversationHistory := store'; calls := calls w ++ [asked] |})
        end
    | Rejected _ =>
        let request := replyRequest event [textMessage Literal.apology] in
        (adopt (replyMessage request),
         {| conversationHistory := <[cid := left]> store;
            calls := calls w ++ [asked; CallReply request] |})
    | Pending =>
        (Pending,
         {| conversationHistory := <[cid := left]> store;
            calls := calls w ++ [asked] |})
    end.
Proof.
  intros (Htype & Hmsg & Hmtype) Hreset Hhelp.
  rewrite (Dispatcher.handleEvent_text _ _ sendMessage replyMessage
             event message w Htype Hmsg Hmtype).
  cbv zeta. rewrite Hreset, Hhelp. unfold bind at 1.
  rewrite getChatResponse_run. cbv zeta.
  destruct (sendMessage _ _).1 as [aiResponse|error|].
  - rewrite addToHistory_twice, turnsOf_insert_eq, insert_insert_eq.
    destruct (Chunker.splitMessage aiResponse 4500) as [messages|].
    + rewrite reply_run. cbn [conversationHistory calls].
      rewrite <- app_assoc. reflexivity.
    + reflexivity.
  - rewrite reply_run. cbn [conversationHistory calls].
    rewrite <- app_assoc. reflexivity.
  - reflexivity.
Qed.

(** What one call of [handleEvent] can do to the map and add to the log. *)
Lemma handleEvent_effect (event : Event) (w : World) :
  let cid := conversationIdOf (e_source event) in
  let store := conversationHistory w in
  let old := turnsOf cid store in
  let w' := (handleEvent sendMessage replyMessage event w).2 in
  (conversationHistory w' = store
   \/ conversationHistory w' = clearHistory cid store
   \/ exists h, conversationHistory w' = <[cid := h]> store)
  /\ exists new,
       calls w' = calls w ++ new
       /\ (new = []
           \/ (exists request, new = [CallReply request])
           \/ (exists m, new = [CallModel old m])
           \/ (exists m request, new = [CallModel old m; CallReply request])).
Proof.
  cbv zeta.
  destruct (strictEq (e_type event) Literal.message) eqn:Ht.
  2:{ assert (handleEvent sendMessage replyMessage event w
              = (Fulfilled None, w)) as ->
        by (unfold handleEvent; rewrite Ht; reflexivity).
      split; [left; reflexivity|].
      exists []. split; [symmetry; apply app_nil_r | left; reflexivity]. }
  destruct (e_message event) as [message|] eqn:Hm.
  2:{ assert (handleEvent sendMessage replyMessage event w
              = (Rejected TypeError, w)) as ->
        by (unfold handleEvent; rewrite Ht, Hm; reflexivity).
      split; [left; reflexivity|].
      exists []. split; [symmetry; apply app_nil_r | left; reflexivity]. }
  destruct (strictEq (m_type message) Literal.text) eqn:Hmt.
  2:{ assert (handleEvent sendMessage replyMessage event w
              = (Fulfilled None, w)) as ->
        by (unfold handleEvent; rewrite Ht, Hm, Hmt; reflexivity).
      split; [left; reflexivity|].
      exists []. split; [symmetry; apply app_nil_r | left; reflexivity]. }
  assert (Htext : isTextMessage event message).
  { split; [apply strictEq_eq; exact Ht|]. split; [exact Hm|].
    apply strictEq_eq; exact Hmt. }
  destruct (strictEq (m_text message) Literal.reset_ja
            || strictEq (m_text message) Literal.reset_cmd) eqn:Hreset.
  { destruct Htext as (H1 & H2 & H3).
    rewrite (Dispatcher.handleEvent_text _ _ sendMessage replyMessage
               event message w H1 H2 H3).
    cbv zeta. rewrite Hreset.
    split; [right; left; reflexivity|].
    eexists. split; [reflexivity|]. right; left. eexists; reflexivity. }
  destruct (strictEq (m_text message) Literal.help_ja
            || strictEq (m_text message) Literal.help_cmd) eqn:Hhelp.
  { destruct Htext as (H1 & H2 & H3).
    rewrite (Dispatcher.handleEvent_text _ _ sendMessage replyMessage
               event message w H1 H2 H3).
    cbv zeta. rewrite Hreset, Hhelp.
    split; [left; reflexivity|].
    eexists. split; [reflexivity|]. right; left. eexists; reflexivity. }
  rewrite (handleEvent_chat_run event message w Htext Hreset Hhelp). cbv zeta.
  destruct (sendMessage _ _).1 as [aiResponse|error|].
  - destruct (Chunker.splitMessage aiResponse 4500) as [messages|];
      cbn [snd conversationHistory calls].
    + split; [right; right; eexists; reflexivity|].
      eexists. split; [reflexivity|].
      right; right; right. do 2 eexists; reflexivity.
    + split; [right; right; eexists; reflexivity|].
      eexists. split; [reflexivity|]. right; right; left. eexists; reflexivity.
  - cbn [snd conversationHistory calls].
    split; [right; right; eexists; reflexivity|].
    eexists. split; [reflexivity|].
    right; right; right. do 2 eexists; reflexivity.
  - cbn [snd conversationHistory calls].
    split; [right; right; eexists; reflexivity|].
    eexists. split; [reflexivity|]. right; right; left. eexists; reflexivity.
Qed.

End Clients.

End BotMore.

(** ** Further properties of the model gateway *)

Module GatewayMore.
Import History HistoryFacts StoreSpec HistoryMore Bot BotFacts BotMore.



(** X13: after a call that the model answered, the next call for the same
    conversation hands the model what the client left in the array followed
    by the user turn and the model turn of the first call, under the cap.
    With a session that has itself pushed the exchange onto the array, the
    second request carries the first exchange twice. *)
Theorem getChatResponse_remembers
        (Reason : Type)
        (sendMessage :
           list Turn -> jsstring -> Outcome (Failure Reason) jsstring * list Turn)
        (cid : Key) (first second answer : jsstring) (left : list Turn)
        (w : World) :
  sendMessage (turnsOf cid (conversationHistory w)) first
  = (Fulfilled answer, left) ->
  calls (getChatResponse sendMessage cid second
           (getChatResponse sendMessage cid first w).2).2
  = calls w
    ++ [CallModel (turnsOf cid (conversationHistory w)) first;
        CallModel
          (lastn MAX_HISTORY_LENGTH
             (left
              ++ [ {| role := lit "user"; parts := [ {| text := first |} ] |};
                   {| role := lit "model"; parts := [ {| text := answer |} ] |} ]))
          second].
Proof.
  intros Hok.
  rewrite getChatResponse_calls, getChatResponse_calls, getChatResponse_store.
  rewrite Hok, turnsOf_insert_eq, <- app_assoc. reflexivity.
Qed.

Lemma getChatResponse_remembers_witness :
  Scenario.chatSession
    (turnsOf (Some (lit "G1")) (conversationHistory Scenario.world))
    (lit "one")
  = (Fulfilled (lit "ok"),
     [mkTurn Literal.user (lit "hi"); mkTurn Literal.model (lit "hello");
      mkTurn Literal.user (lit "one"); mkTurn Literal.model (lit "ok")])
  /\ calls (getChatResponse Scenario.chatSession (Some (lit "G1")) (lit "two")
              (getChatResponse Scenario.chatSession (Some (lit "G1"))
                               (lit "one") Scenario.world).2).2
     = [CallModel [mkTurn Literal.user (lit "hi");
                   mkTurn Literal.model (lit "hello")] (lit "one");
        CallModel [mkTurn Literal.user (lit "hi");
                   mkTurn Literal.model (lit "hello");
                   mkTurn Literal.user (lit "one");
                   mkTurn Literal.model (lit "ok");
                   mkTurn Literal.user (lit "one");
                   mkTurn Literal.model (lit "ok")] (lit "two")].
Proof.
  split; [reflexivity|].
  rewrite (getChatResponse_remembers N Scenario.chatSession (Some (lit "G1"))
             (lit "one") (lit "two") (lit "ok") _ Scenario.world eq_refl).
  reflexivity.
Defined.

(** X14: after a call that the model answered, whatever the client has
    written to the array, the history of the conversation holds at most
    [MAX_HISTORY_LENGTH] turns and ends with the user turn and the model
    turn of this call. *)
Theorem getChatResponse_ends_with_exchange
        (Reason : Type)
        (sendMessage :
           list Turn -> jsstring -> Outcome (Failure Reason) jsstring * list Turn)
        (cid : Key) (userMessage answer : jsstring) (left : list Turn)
        (w : World) :
  sendMessage (turnsOf cid (conversationHistory w)) userMessage
  = (Fulfilled answer, left) ->
  (length (turnsOf cid
             (conversationHistory
                (getChatResponse sendMessage cid userMessage w).2))
   <= MAX_HISTORY_LENGTH)%nat
  /\ exists earlier,
       turnsOf cid
         (conversationHistory (getChatResponse sendMessage cid userMessage w).2)
       = earlier ++ [ {| role := lit "user"; parts := [ {| text := userMessage |} ] |};
                     {| role := lit "model"; parts := [ {| text := answer |} ] |}].
Proof.
  intros Hok. rewrite getChatResponse_store, Hok, turnsOf_insert_eq. cbn [fst snd].
  split; [rewrite length_lastn; lia|].
  exists (drop (length left + 2 - MAX_HISTORY_LENGTH) left).
  unfold lastn. rewrite length_app. cbn [length].
  apply drop_app_le. unfold MAX_HISTORY_LENGTH. lia.
Qed.

Lemma getChatResponse_ends_with_exchange_witness :
  Scenario.chatSession
    (turnsOf (Some (lit "G1")) Scenario.fullStore) (lit "hello")
  = (Fulfilled (lit "ok"),
     turnsOf (Some (lit "G1")) Scenario.fullStore
     ++ [mkTurn Literal.user (lit "hello"); mkTurn Literal.model (lit "ok")])
  /\ length (turnsOf (Some (lit "G1")) Scenario.fullStore) = 20%nat
  /\ (length (turnsOf (Some (lit "G1"))
                (conversationHistory
                   (getChatResponse Scenario.chatSession (Some (lit "G1"))
                      (lit "hello")
                      {| conversationHistory := Scenario.fullStore;
                         calls := [] |}).2))
      <= MAX_HISTORY_LENGTH)%nat
  /\ exists earlier,
       turnsOf (Some (lit "G1"))
         (conversationHistory
            (getChatResponse Scenario.chatSession (Some (lit "G1"))
               (lit "hello")
               {| conversationHistory := Scenario.fullStore;
                  calls := [] |}).2)
       = earlier ++ [mkTurn Literal.user (lit "hello");
                     mkTurn Literal.model (lit "ok")].
Proof.
  split; [reflexivity|]. split; [reflexivity|].
  exact (getChatResponse_ends_with_exchange N Scenario.chatSession
           (Some (lit "G1")) (lit "hello") (lit "ok") _
           {| conversationHistory := Scenario.fullStore; calls := [] |}
           eq_refl).
Defined.

End GatewayMore.

(** ** Further properties of the dispatcher *)

Module DispatcherMore.
Import History HistoryFacts StoreSpec HistoryMore Bot BotFacts BotMore
       DispatcherSpec.


Section Clients.
Variables Reason ReplyResponse : Type.
Variable sendMessage :
  list Turn -> jsstring -> Outcome (Failure Reason) jsstring * list Turn.
Variable replyMessage :
  ReplyRequest -> Outcome (Failure Reason) ReplyResponse.

(** X15: an event that is not a message, or a message that is not a text,
    is answered with [null]: no call is made and the map is not touched. *)
Theorem handleEvent_ignores (event : Event) (w : World) :
  e_type event <> Literal.message
  \/ (exists message,
         e_message event = Some message /\ m_type message <> Literal.text) ->
  handleEvent sendMessage replyMessage event w = (Fulfilled None, w).
Proof.
  intros Hskip. unfold handleEvent.
  destruct (strictEq (e_type event) Literal.message) eqn:Ht; [|reflexivity].
  destruct Hskip as [Hne|(message & Hm & Hmt)].
  - apply strictEq_eq in Ht. contradiction.
  - rewrite Hm, (strictEq_false _ _ Hmt). reflexivity.
Qed.

(** X16: a message event that carries no [message] makes [handleEvent]
    reject with the [TypeError] of the property read, before any call is
    made or the map is touched. *)
Theorem handleEvent_missing_message (event : Event) (w : World) :
  e_type event = Literal.message ->
  e_message event = None ->
  handleEvent sendMessage replyMessage event w = (Rejected TypeError, w).
Proof.
  intros Ht Hm. unfold handleEvent.
  rewrite (strictEq_true _ _ Ht), Hm. reflexivity.
Qed.


(** X18: whatever the event and whatever the clients answer, [handleEvent]
    leaves the entry of every conversation other than the event's own as it
    was. *)
Theorem handleEvent_frame (event : Event) (w : World) (cid' : Key) :
  cid' <> conversationIdOf (e_source event) ->
  conversationHistory (handleEvent sendMessage replyMessage event w).2 !! cid'
  = conversationHistory w !! cid'.
Proof.
  intros Hne.
  destruct (handleEvent_effect _ _ sendMessage replyMessage event w)
    as [[Hs|[Hs|(h & Hs)]] _]; rewrite Hs.
  - reflexivity.
  - apply lookup_delete_ne. congruence.
  - apply lookup_insert_ne. congruence.
Qed.

(** X20: one call of [handleEvent] adds to the log nothing, one reply, one
    model call, or one model call followed by one reply; the model is never
    called twice, never after the reply, and always with the turns on record
    for the conversation of the event. *)
Theorem handleEvent_log (event : Event) (w : World) :
  exists new,
    calls (handleEvent sendMessage replyMessage event w).2 = calls w ++ new
    /\ (new = []
        \/ (exists request, new = [CallReply request])
        \/ (exists m,
               new = [CallModel
                        (turnsOf (conversationIdOf (e_source event))
                                 (conversationHistory w)) m])
        \/ (exists m request,
               new = [CallModel
                        (turnsOf (conversationIdOf (e_source event))
                                 (conversationHistory w)) m;
                      CallReply request])).
Proof.
  exact (proj2 (handleEvent_effect _ _ sendMessage replyMessage event w)).
Qed.

(** X21: when two events are handled one after the other, with no call of
    an earlier message still waiting for the model, the message that follows
    a reset in the same conversation reaches the model with an empty
    history. *)
Theorem reset_then_message
        (reset : Event) (resetMessage : Message)
        (next : Event) (nextMessage : Message) (w : World) :
  isTextMessage reset resetMessage ->
  m_text resetMessage = Literal.reset_ja
  \/ m_text resetMessage = Literal.reset_cmd ->
  isTextMessage next nextMessage ->
  ~ isCommand (m_text nextMessage) ->
  conversationIdOf (e_source next) = conversationIdOf (e_source reset) ->
  exists rest,
    calls (handleEvent sendMessage replyMessage next
             (handleEvent sendMessage replyMessage reset w).2).2
    = calls w
      ++ CallReply (replyRequest reset [textMessage Literal.resetReply])
         :: CallModel [] (m_text nextMessage) :: rest.
Proof.
  intros (H1 & H2 & H3) Htoken Hnext Hnc Hsame.
  destruct (notCommand_tests _ Hnc) as [Hreset Hhelp].
  rewrite (Dispatcher.handleEvent_text _ _ sendMessage replyMessage
             reset resetMessage w H1 H2 H3).
  cbv zeta.
  assert (strictEq (m_text resetMessage) Literal.reset_ja
          || strictEq (m_text resetMessage) Literal.reset_cmd = true) as ->.
  { destruct Htoken as [H|H]; rewrite H; reflexivity. }
  unfold bind, writeStore. rewrite reply_run. cbn [snd conversationHistory calls].
  rewrite (handleEvent_chat_run _ _ sendMessage replyMessage
             next nextMessage _ Hnext Hreset Hhelp).
  cbv zeta. cbn [conversationHistory calls]. rewrite Hsame.
  assert (turnsOf (conversationIdOf (e_source reset))
                  (clearHistory (conversationIdOf (e_source reset))
                                (conversationHistory w)) = []) as ->.
  { unfold turnsOf, clearHistory. rewrite lookup_delete_eq. reflexivity. }
  destruct (sendMessage [] (m_text nextMessage)).1 as [aiResponse|error|].
  - destruct (Chunker.splitMessage aiResponse 4500) as [messages|];
      cbn [snd calls]; rewrite <- app_assoc; eexists; reflexivity.
  - cbn [snd calls]. rewrite <- app_assoc. eexists; reflexivity.
  - cbn [snd calls]. rewrite <- app_assoc. eexists; reflexivity.
Qed.

End Clients.

Lemma hello_isTextMessage :
  isTextMessage (Scenario.textEvent Scenario.inGroup (lit "hello"))
                {| m_type := Literal.text; m_text := lit "hello" |}.
Proof. repeat split. Qed.

Lemma hello_not_command : ~ isCommand (lit "hello").
Proof.
  unfold isCommand. intros [H|[H|[H|H]]]; vm_compute in H; discriminate H.
Qed.

Lemma handleEvent_ignores_witness :
  (lit "follow" <> Literal.message
   \/ exists message,
        (None : option Message) = Some message
        /\ m_type message <> Literal.text)
  /\ handleEvent Scenario.modelUp Scenario.delivered
       {| e_type := lit "follow"; e_message := None;
          e_source := Scenario.inGroup; e_replyToken := lit "token" |}
       Scenario.world
     = (Fulfilled None, Scenario.world).
Proof.
  assert (H : lit "follow" <> Literal.message
              \/ exists message,
                   (None : option Message) = Some message
                   /\ m_type message <> Literal.text).
  { left. intros E. vm_compute in E. discriminate E. }
  split; [exact H|].
  exact (handleEvent_ignores N unit Scenario.modelUp Scenario.delivered
           {| e_type := lit "follow"; e_message := None;
              e_source := Scenario.inGroup; e_replyToken := lit "token" |}
           Scenario.world H).
Defined.

Lemma handleEvent_missing_message_witness :
  handleEvent Scenario.modelUp Scenario.delivered
    {| e_type := Literal.message; e_message := None;
       e_source := Scenario.inGroup; e_replyToken := lit "token" |}
    Scenario.world
  = (Rejected TypeError, Scenario.world).
Proof.
  exact (handleEvent_missing_message N unit Scenario.modelUp Scenario.delivered
           {| e_type := Literal.message; e_message := None;
              e_source := Scenario.inGroup; e_replyToken := lit "token" |}
           Scenario.world eq_refl eq_refl).
Defined.


Lemma handleEvent_frame_witness :
  Some (lit "U1") <> conversationIdOf Scenario.inGroup
  /\ conversationHistory
       (handleEvent Scenario.modelUp Scenario.delivered
          (Scenario.textEvent Scenario.inGroup (lit "hello"))
          Scenario.world).2 !! Some (lit "U1")
     = conversationHistory Scenario.world !! Some (lit "U1").
Proof.
  assert (Hne : Some (lit "U1") <> conversationIdOf Scenario.inGroup)
    by (intros E; vm_compute in E; discriminate E).
  split; [exact Hne|].
  exact (handleEvent_frame N unit Scenario.modelUp Scenario.delivered
           (Scenario.textEvent Scenario.inGroup (lit "hello"))
           Scenario.world (Some (lit "U1")) Hne).
Defined.

Lemma reset_then_message_witness :
  isTextMessage (Scenario.textEvent Scenario.inGroup Literal.reset_cmd)
                {| m_type := Literal.text; m_text := Literal.reset_cmd |}
  /\ ~ isCommand (lit "hello")
  /\ exists rest,
       calls (handleEvent Scenario.modelUp Scenario.delivered
                (Scenario.textEvent Scenario.inGroup (lit "hello"))
                (handleEvent Scenario.modelUp Scenario.delivered
                   (Scenario.textEvent Scenario.inGroup Literal.reset_cmd)
                   Scenario.world).2).2
       = calls Scenario.world
         ++ CallReply
              (replyRequest
                 (Scenario.textEvent Scenario.inGroup Literal.reset_cmd)
                 [textMessage Literal.resetReply])
            :: CallModel [] (lit "hello") :: rest.
Proof.
  assert (Hreset : isTextMessage
                     (Scenario.textEvent Scenario.inGroup Literal.reset_cmd)
                     {| m_type := Literal.text; m_text := Literal.reset_cmd |})
    by (repeat split).
  split; [exact Hreset|]. split; [exact hello_not_command|].
  exact (reset_then_message N unit Scenario.modelUp Scenario.delivered
           (Scenario.textEvent Scenario.inGroup Literal.reset_cmd)
           {| m_type := Literal.text; m_text := Literal.reset_cmd |}
           (Scenario.textEvent Scenario.inGroup (lit "hello"))
           {| m_type := Literal.text; m_text := lit "hello" |}
           Scenario.world Hreset (or_intror eq_refl)
           hello_isTextMessage hello_not_command eq_refl).
Defined.

End DispatcherMore.

(** ** Properties of the webhook route *)

Module WebhookFacts.
Import History HistoryFacts StoreSpec HistoryMore Bot BotFacts BotMore
       DispatcherSpec Webhook.

Lemma fulfilledValues_map {E A} (rs : list A) :
  fulfilledValues (List.map (@Fulfilled E A) rs) = Some rs.
Proof. induction rs as [|r rs IH]; cbn; [|rewrite IH]; reflexivity. Qed.

Lemma fulfilledValues_Some {E A} (ps : list (Outcome E A)) :
  forall rs, fulfilledValues ps = Some rs -> ps = List.map Fulfilled rs.
Proof.
  induction ps as [|[a|e|] ps IH]; intros rs H; cbn in H; try discriminate.
  - injection H as <-. reflexivity.
  - destruct (fulfilledValues ps) as [vs|]; [|discriminate].
    injection H as <-. cbn. rewrite (IH vs eq_refl). reflexivity.
Qed.

Lemma no_rejection_in_map {E A} (rs : list A) :
  existsb isRejected (List.map (@Fulfilled E A) rs) = false.
Proof. induction rs as [|r rs IH]; cbn; [reflexivity | exact IH]. Qed.

Lemma rejected_found {E A} (ps : list (Outcome E A)) :
  existsb isRejected ps = true <-> exists e, In (Rejected e) ps.
Proof.
  rewrite existsb_exists. split.
  - intros ([a|e|] & Hin & Hrej); try discriminate. exists e. exact Hin.
  - intros [e Hin]. exists (Rejected e). split; [exact Hin | reflexivity].
Qed.

(** X22: the route answers 500 exactly when the promise of some event is
    rejected, and answers with the results, in the order of the events,
    exactly when the promises of all events are fulfilled. *)
Theorem respond_status {E A} (promises : list (Outcome E A)) :
  (respond promises = Status500 <-> exists e, In (Rejected e) promises)
  /\ (forall result,
         respond promises = Json result
         <-> promises = List.map Fulfilled result).
Proof.
  unfold respond. split.
  - rewrite <- rejected_found.
    destruct (existsb isRejected promises); [tauto|].
    destruct (fulfilledValues promises); split; discriminate.
  - intros result. split.
    + destruct (existsb isRejected promises); [discriminate|].
      destruct (fulfilledValues promises) as [vs|] eqn:Hv; [|discriminate].
      intros H. injection H as <-. apply fulfilledValues_Some. exact Hv.
    + intros ->. rewrite no_rejection_in_map, fulfilledValues_map. reflexivity.
Qed.



End WebhookFacts.
